(** * Function definitions of the schema: signature compiler

    A shallow embedding of [edb/lang/schema/functions.py]: parameter
    extraction ([parameters_from_ast]), the overload-qualified name
    ([FunctionCommandMixin._get_function_fullname]), the command tree of a
    CREATE FUNCTION statement, its application to a schema and the target
    name of a DROP FUNCTION statement.

    Python exceptions are results of type [result]; the schema, which the
    Python code mutates in place, is passed explicitly and returned together
    with the outcome. *)

From stdpp Require Import base option list strings gmap fin_maps.

Open Scope string_scope.
Open Scope list_scope.

(** ** Names *)

(** [sn.Name]: a string subclass built from a module and a local name; as a
    string it reads [module::name]. *)
Record Name := mkName { module : string; name : string }.

Definition Name_str (n : Name) : string := module n +:+ "::" +:+ name n.

(** ** Enumerations of the syntax tree *)

Inductive TypeModifier := SINGLETON | OPTIONAL | SET_OF.

Inductive ParameterKind := POSITIONAL | NAMED_ONLY | VARIADIC.

Inductive Language := SQL | EdgeQL.

#[global] Instance ParameterKind_eq_dec : EqDecision ParameterKind.
Proof. solve_decision. Defined.

Definition is_VARIADIC (k : ParameterKind) : bool :=
  match k with VARIADIC => true | _ => false end.

Definition is_NAMED_ONLY (k : ParameterKind) : bool :=
  match k with NAMED_ONLY => true | _ => false end.

(** ** Type references

    What [utils.ast_to_typeref] hands back and what a [paramtypes] list
    holds: an [so.ObjectRef] (a reference by class name), an
    [s_types.Collection] (with its [schema_name], its [element_type] and,
    as every named object, a [name]) or any other type object, of which
    the code only reads [name]. *)
Inductive SchemaType :=
| ObjectRef (classname : Name)
| Collection (coll_name : Name) (schema_name : string)
             (element_type : SchemaType)
| TypeObj (type_name : Name).

(** The [name] attribute of a type object. An [ObjectRef] answers with the
    class name it refers to. *)
Definition SchemaType_name (t : SchemaType) : Name :=
  match t with
  | ObjectRef cn => cn
  | Collection n _ _ => n
  | TypeObj n => n
  end.

(** ** Exceptions *)

(** The three [ql_errors.EdgeQLError] raised in this file, told apart by
    their message. *)
Inductive EdgeQLErrorKind :=
| PolymorphicDefault   (* polymorphic parameter ... cannot have a default value *)
| DuplicateSignature   (* a function with the same signature is already defined *)
| NamedOnlyNotAllowed. (* named only parameters are not allowed in this context *)

Inductive Exception :=
| EdgeQLError (k : EdgeQLErrorKind)
| KeyError (key : string)
| TypeError
| External (msg : string).

Definition PolymorphicDefaultError : Exception := EdgeQLError PolymorphicDefault.
Definition DuplicateSignatureError : Exception := EdgeQLError DuplicateSignature.
Definition InvalidParameterKindError : Exception := EdgeQLError NamedOnlyNotAllowed.

Inductive result (A : Type) :=
| Ok (a : A)
| Raise (e : Exception).

Arguments Ok {A} a.
Arguments Raise {A} e.

#[global] Instance result_ret : MRet result := fun _ a => Ok a.

#[global] Instance result_bind : MBind result := fun _ _ f m =>
  match m with
  | Ok a => f a
  | Raise e => Raise e
  end.

Definition is_Ok {A} (r : result A) : bool :=
  match r with Ok _ => true | Raise _ => false end.

(** ** Field values, commands and the schema *)

(** The values the property commands of a function carry. *)
Inductive Value :=
| VNone
| VName (n : Name)
| VStr (s : string)
| VBool (b : bool)
| VStrList (l : list string)
| VTypeList (l : list SchemaType)
| VTypeModList (l : list TypeModifier)
| VKindList (l : list ParameterKind)
| VExprList (l : list (option string))
| VType (t : SchemaType)
| VTypeMod (m : TypeModifier)
| VLanguage (l : Language).

Definition VOptStr (o : option string) : Value :=
  match o with Some s => VStr s | None => VNone end.

(** [sd.AlterObjectProperty(property=..., new_value=...)] *)
Record AlterObjectProperty := mkAlterObjectProperty {
  property : string;
  new_value : Value
}.

(** An object-level command: the class name it targets and its property
    commands, in the order of the [add] calls. *)
Record Command := mkCommand {
  classname_of : Name;
  ops : list AlterObjectProperty
}.

Definition add (cmd : Command) (op : AlterObjectProperty) : Command :=
  mkCommand (classname_of cmd) (ops cmd ++ [op]).

(** A schema object is its mapping from field names to values; a schema
    maps the string of a qualified name to the object stored there. *)
Abbreviation SchemaObject := (gmap string Value).
Abbreviation Schema := (gmap string SchemaObject).

(** ** Parameter extraction *)

Record ParametersInfo := mkParametersInfo {
  paramnames : list string;
  paramdefaults : list (option string);
  paramtypes : list SchemaType;
  paramtypemods : list TypeModifier;
  paramkinds : list ParameterKind;
  variadic : option nat
}.

Section Functions.

(** Syntax-tree nodes of the parser: expressions, syntactic types and
    object references; and the module aliases of a command context. *)
Variables Expr TypeName ObjectRefNode ModAliases : Type.

(** [codegen.generate_source] and [utils.ast_to_typeref], the
    code-generation and type-resolution collaborators; both may raise. *)
Variable generate_source : Expr -> result string.
Variable ast_to_typeref : TypeName -> ModAliases -> Schema -> result SchemaType.

(** [qlast.FuncParam] *)
Record FuncParam := mkFuncParam {
  arg_name : string;
  arg_type : TypeName;
  arg_typemod : TypeModifier;
  arg_kind : ParameterKind;
  arg_default : option Expr
}.

(** [default = None; if arg.default is not None: default =
    codegen.generate_source(arg.default)] *)
Definition source_of_default (arg : FuncParam) : result (option string) :=
  match arg_default arg with
  | Some e => src ← generate_source e; Ok (Some src)
  | None => Ok None
  end.

(** The body of the loop of [parameters_from_ast], for the argument [arg]
    at index [argi], on the lists and the variadic index built so far. *)
Definition parameters_step (modaliases : ModAliases) (schema : Schema)
    (allow_named : bool) (argi : nat) (arg : FuncParam)
    (pi : ParametersInfo) : result ParametersInfo :=
  let paramnames' := paramnames pi ++ [arg_name arg] in
  let paramtypemods' := paramtypemods pi ++ [arg_typemod arg] in
  let paramkinds' := paramkinds pi ++ [arg_kind arg] in
  default ← source_of_default arg;
  let paramdefaults' := paramdefaults pi ++ [default] in
  ty ← ast_to_typeref (arg_type arg) modaliases schema;
  let paramtypes' := paramtypes pi ++ [ty] in
  let variadic' :=
    if is_VARIADIC (arg_kind arg) then Some argi else variadic pi in
  if is_NAMED_ONLY (arg_kind arg) && negb allow_named
  then Raise InvalidParameterKindError
  else Ok (mkParametersInfo paramnames' paramdefaults' paramtypes'
                            paramtypemods' paramkinds' variadic').

(** [for argi, arg in enumerate(astnode.args)], from index [argi] on. *)
Fixpoint parameters_loop (modaliases : ModAliases) (schema : Schema)
    (allow_named : bool) (argi : nat) (args : list FuncParam)
    (pi : ParametersInfo) : result ParametersInfo :=
  match args with
  | [] => Ok pi
  | arg :: rest =>
      pi' ← parameters_step modaliases schema allow_named argi arg pi;
      parameters_loop modaliases schema allow_named (S argi) rest pi'
  end.

Definition parameters_from_ast (args : list FuncParam)
    (modaliases : ModAliases) (schema : Schema) (allow_named : bool)
    : result ParametersInfo :=
  parameters_loop modaliases schema allow_named 0 args
    (mkParametersInfo [] [] [] [] [] None).

(** ** The overload-qualified name *)

(** Modelled from the spec: [named.NamedObject.get_specialized_name], the
    object model's generic operation that specializes a name with
    qualifiers; it is not part of this file. It takes the base name and the
    qualifier tokens, in order, and gives the local part of the new name. *)
Variable get_specialized_name : Name -> list string -> string.

(** One turn of the loop over [paramtypes]: the tokens [pt] appends to
    [quals]. *)
Definition quals_step (quals : list string) (pt : SchemaType) : list string :=
  match pt with
  | ObjectRef cn => quals ++ [Name_str cn]
  | Collection _ sname et =>
      let quals := quals ++ [sname] in
      match et with
      | ObjectRef cn => quals ++ [Name_str cn]
      | _ => quals ++ [Name_str (SchemaType_name et)]
      end
  | TypeObj n => quals ++ [Name_str n]
  end.

(** The list [quals] at the end of the loop; [paramtypes] may be [None]
    (a missing property) and is skipped when it is [None] or empty. *)
Definition function_quals (paramtypes : option (list SchemaType))
    : list string :=
  match paramtypes with
  | Some ((_ :: _) as pts) => fold_left quals_step pts []
  | _ => []
  end.

Definition _get_function_fullname (nm : Name)
    (paramtypes : option (list SchemaType)) : Name :=
  let quals := function_quals paramtypes in
  mkName (module nm) (get_specialized_name nm quals).

(** ** Properties of a command *)

(** [props[key]] *)
Definition getitem (props : gmap string Value) (key : string) : result Value :=
  match props !! key with
  | Some v => Ok v
  | None => Raise (KeyError key)
  end.

Definition as_Name (v : Value) : result Name :=
  match v with VName n => Ok n | _ => Raise TypeError end.

Definition as_StrList (v : Value) : result (list string) :=
  match v with VStrList l => Ok l | _ => Raise TypeError end.

Definition as_TypeList (v : Value) : result (list SchemaType) :=
  match v with VTypeList l => Ok l | _ => Raise TypeError end.

Definition as_ExprList (v : Value) : result (list (option string)) :=
  match v with VExprList l => Ok l | _ => Raise TypeError end.

(** [props.get('paramtypes')], as the argument of
    [_get_function_fullname]. *)
Definition get_paramtypes (props : gmap string Value)
    : result (option (list SchemaType)) :=
  match props !! "paramtypes" with
  | None | Some VNone => Ok None
  | Some (VTypeList l) => Ok (Some l)
  | Some _ => Raise TypeError
  end.

(** Modelled from the spec: [get_struct_properties] of the base command
    class, which is not part of this file. An object-level command owns its
    target's qualified name and an ordered list of property commands; the
    properties are the name, under [name], and the value each property
    command sets, a later command overriding an earlier one. *)
Definition NamedObjectCommand_get_struct_properties (self : Command)
    (schema : Schema) : gmap string Value :=
  fold_left (fun props op => <[property op := new_value op]> props)
            (ops self) {[ "name" := VName (classname_of self) ]}.

Definition CreateFunction_get_struct_properties (self : Command)
    (schema : Schema) : result (gmap string Value) :=
  let props := NamedObjectCommand_get_struct_properties self schema in
  nm ← getitem props "name" ≫= as_Name;
  pts ← get_paramtypes props;
  Ok (<["name" := VName (_get_function_fullname nm pts)]> props).

(** ** Adding a function to the schema *)

(** Code that reads and updates the schema and may raise: the schema is
    threaded through, and a raise keeps the schema as it is at that
    point. *)
Definition SchemaM (A : Type) : Type := Schema -> Schema * result A.

#[local] Instance SchemaM_ret : MRet SchemaM := fun _ a schema => (schema, Ok a).

#[local] Instance SchemaM_bind : MBind SchemaM := fun _ _ f m schema =>
  match m schema with
  | (schema', Ok a) => f a schema'
  | (schema', Raise e) => (schema', Raise e)
  end.

Definition lift {A} (r : result A) : SchemaM A := fun schema => (schema, r).

Definition raise {A} (e : Exception) : SchemaM A := lift (Raise e).

(** [schema.get(key, None)] *)
Definition schema_get (key : string) : SchemaM (option SchemaObject) :=
  fun schema => (schema, Ok (schema !! key)).

(** [schema.add(obj)], under the string of the object's name. *)
Definition schema_add (key : string) (obj : SchemaObject) : SchemaM unit :=
  fun schema => (<[key := obj]> schema, Ok ()).

(** Modelled from the spec: [_add_to_schema] of the base Create command,
    which is not part of this file. Create instantiates a new object at the
    computed name and applies the property commands: the object is made of
    the properties [get_struct_properties] gives (the method of the
    command's own class, here an argument) and is stored under their
    [name]. *)
Definition CreateNamedObject__add_to_schema
    (get_struct_properties : Schema -> result (gmap string Value))
    : SchemaM unit :=
  fun schema =>
    (props ← lift (get_struct_properties schema);
     nm ← lift (getitem props "name" ≫= as_Name);
     schema_add (Name_str nm) props) schema.

Definition is_any (pt : SchemaType) : bool :=
  String.eqb (Name_str (SchemaType_name pt)) "std::any".

(** The loop over [zip(paramnames, paramtypes, paramdefaults)]: it stops
    with the shortest list. *)
Fixpoint check_any_defaults (pns : list string) (pts : list SchemaType)
    (pds : list (option string)) : result unit :=
  match pns, pts, pds with
  | pn :: pns', pt :: pts', pd :: pds' =>
      if is_any pt && bool_decide (pd ≠ None)
      then Raise PolymorphicDefaultError
      else check_any_defaults pns' pts' pds'
  | _, _, _ => Ok ()
  end.

Definition CreateFunction__add_to_schema (self : Command) : SchemaM unit :=
  fun schema =>
    (let props := NamedObjectCommand_get_struct_properties self schema in
     nm ← lift (getitem props "name" ≫= as_Name);
     ptsopt ← lift (get_paramtypes props);
     let fullname := _get_function_fullname nm ptsopt in
     pns ← lift (getitem props "paramnames" ≫= as_StrList);
     pts ← lift (getitem props "paramtypes" ≫= as_TypeList);
     pds ← lift (getitem props "paramdefaults" ≫= as_ExprList);
     _ ← lift (check_any_defaults pns pts pds);
     func ← schema_get (Name_str fullname);
     match func with
     | Some _ => raise DuplicateSignatureError
     | None =>
         CreateNamedObject__add_to_schema
           (CreateFunction_get_struct_properties self)
     end) schema.

(** ** Command trees from the syntax *)

(** The context of a command: the module aliases in force. *)
Record CommandContext := mkCommandContext { modaliases : ModAliases }.

(** Modelled from the spec: [_classname_from_ast] of the base command
    class, which is not part of this file: the qualified base name of the
    object a statement names. *)
Variable NamedObjectCommand__classname_from_ast :
  ObjectRefNode -> CommandContext -> Schema -> result Name.

(** [qlast.FunctionCode] *)
Record FunctionCode := mkFunctionCode {
  language : Language;
  from_name : option string;
  code : option string
}.

(** [qlast.CreateFunction] *)
Record CreateFunctionNode := mkCreateFunctionNode {
  cf_name : ObjectRefNode;
  cf_args : list FuncParam;
  cf_returning : TypeName;
  cf_returning_typemod : TypeModifier;
  cf_aggregate : bool;
  cf_initial_value : option Expr;
  cf_code : option FunctionCode
}.

(** [qlast.DropFunction] *)
Record DropFunctionNode := mkDropFunctionNode {
  df_name : ObjectRefNode;
  df_args : list FuncParam
}.

(** Modelled from the spec: [_cmd_tree_from_ast] of the base Create
    command, which is not part of this file: a new object-level command
    that targets the name of the statement and has no property command
    yet. *)
Definition CreateNamedObject__cmd_tree_from_ast (astname : ObjectRefNode)
    (context : CommandContext) (schema : Schema) : result Command :=
  nm ← NamedObjectCommand__classname_from_ast astname context schema;
  Ok (mkCommand nm []).

Definition CreateFunction__cmd_tree_from_ast (astnode : CreateFunctionNode)
    (context : CommandContext) (schema : Schema) : result Command :=
  cmd ← CreateNamedObject__cmd_tree_from_ast (cf_name astnode) context schema;
  let modaliases := modaliases context in
  pi ← parameters_from_ast (cf_args astnode) modaliases schema true;
  let cmd := add cmd (mkAlterObjectProperty "paramnames"
                        (VStrList (paramnames pi))) in
  let cmd := add cmd (mkAlterObjectProperty "paramtypes"
                        (VTypeList (paramtypes pi))) in
  let cmd := add cmd (mkAlterObjectProperty "paramtypemods"
                        (VTypeModList (paramtypemods pi))) in
  let cmd := add cmd (mkAlterObjectProperty "paramkinds"
                        (VKindList (paramkinds pi))) in
  let cmd := add cmd (mkAlterObjectProperty "paramdefaults"
                        (VExprList (paramdefaults pi))) in
  return_type ← ast_to_typeref (cf_returning astnode) modaliases schema;
  let cmd := add cmd (mkAlterObjectProperty "return_type"
                        (VType return_type)) in
  let cmd := add cmd (mkAlterObjectProperty "aggregate"
                        (VBool (cf_aggregate astnode))) in
  let cmd := add cmd (mkAlterObjectProperty "return_typemod"
                        (VTypeMod (cf_returning_typemod astnode))) in
  cmd ← match cf_initial_value astnode with
        | Some e =>
            iv ← generate_source e;
            Ok (add cmd (mkAlterObjectProperty "initial_value" (VStr iv)))
        | None => Ok cmd
        end;
  let cmd :=
    match cf_code astnode with
    | Some c =>
        let cmd := add cmd (mkAlterObjectProperty "language"
                              (VLanguage (language c))) in
        match from_name c with
        | Some fn =>
            add cmd (mkAlterObjectProperty "from_function" (VStr fn))
        | None =>
            add cmd (mkAlterObjectProperty "code" (VOptStr (code c)))
        end
    | None => cmd
    end in
  Ok cmd.

Definition DeleteFunction__classname_from_ast (astnode : DropFunctionNode)
    (context : CommandContext) (schema : Schema) : result Name :=
  nm ← NamedObjectCommand__classname_from_ast (df_name astnode) context schema;
  pi ← parameters_from_ast (df_args astnode) (modaliases context) schema true;
  Ok (_get_function_fullname nm (Some (paramtypes pi))).

(** ** Notions the statements below use *)

(** The collaborators do not raise on [arg]: its type resolves and its
    default, if it has one, renders. *)
Definition collaborators_succeed (modaliases : ModAliases) (schema : Schema)
    (arg : FuncParam) : Prop :=
  (∃ ty, ast_to_typeref (arg_type arg) modaliases schema = Ok ty) ∧
  (∃ d, source_of_default arg = Ok d).

(** The number of [VARIADIC] entries of a list of kinds. *)
Definition count_VARIADIC (kinds : list ParameterKind) : nat :=
  length (List.filter is_VARIADIC kinds).

(** What the loop leaves in [variadic] after the kinds [kinds], the first
    of which has index [argi], when it held [v] before. *)
Fixpoint variadic_scan (argi : nat) (kinds : list ParameterKind)
    (v : option nat) : option nat :=
  match kinds with
  | [] => v
  | k :: kinds' =>
      variadic_scan (S argi) kinds' (if is_VARIADIC k then Some argi else v)
  end.

(** The index of the first [VARIADIC] entry of a list of kinds. *)
Fixpoint first_VARIADIC (kinds : list ParameterKind) : option nat :=
  match kinds with
  | [] => None
  | k :: kinds' => if is_VARIADIC k then Some 0 else S <$> first_VARIADIC kinds'
  end.

(** The qualifier tokens, as the specification words them: per parameter
    type, the qualified name of a forward reference; for a container its
    schema name and then a token for its element type; the plain name
    otherwise. *)
Definition element_token (et : SchemaType) : string :=
  match et with
  | ObjectRef cn => Name_str cn
  | _ => Name_str (SchemaType_name et)
  end.

Definition qualifier_tokens_of (pt : SchemaType) : list string :=
  match pt with
  | ObjectRef cn => [Name_str cn]
  | Collection _ sname et => [sname; element_token et]
  | TypeObj n => [Name_str n]
  end.

Definition qualifier_tokens (pts : list SchemaType) : list string :=
  concat (qualifier_tokens_of <$> pts).

(** Some parameter of polymorphic type carries a default. *)
Definition polymorphic_with_default (pts : list SchemaType)
    (pds : list (option string)) : Prop :=
  ∃ i pt src, pts !! i = Some pt ∧ is_any pt = true ∧ pds !! i = Some (Some src).

(** The values the property commands of [cmd] give to [prop], in order. *)
Definition property_values (cmd : Command) (prop : string) : list Value :=
  new_value <$> List.filter (fun op => String.eqb (property op) prop) (ops cmd).

(** The type object a forward reference stands for, named as the
    reference says; a container has the reference to its element
    replaced. *)
Definition referenced (t : SchemaType) : SchemaType :=
  match t with
  | ObjectRef cn => TypeObj cn
  | Collection n sname (ObjectRef cn) => Collection n sname (TypeObj cn)
  | _ => t
  end.

Definition is_Collection (t : SchemaType) : bool :=
  match t with Collection _ _ _ => true | _ => false end.

(** ** Parameter extraction: what the loop computes *)

Lemma parameters_step_Ok modaliases schema allow_named argi arg pi pi' :
  parameters_step modaliases schema allow_named argi arg pi = Ok pi' →
  ∃ d ty,
    source_of_default arg = Ok d ∧
    ast_to_typeref (arg_type arg) modaliases schema = Ok ty ∧
    is_NAMED_ONLY (arg_kind arg) && negb allow_named = false ∧
    pi' = mkParametersInfo
            (paramnames pi ++ [arg_name arg]) (paramdefaults pi ++ [d])
            (paramtypes pi ++ [ty]) (paramtypemods pi ++ [arg_typemod arg])
            (paramkinds pi ++ [arg_kind arg])
            (if is_VARIADIC (arg_kind arg) then Some argi else variadic pi).
Proof.
  unfold parameters_step.
  destruct (source_of_default arg) as [d|e]; simpl; [|done].
  destruct (ast_to_typeref _ _ _) as [ty|e]; simpl; [|done].
  destruct (is_NAMED_ONLY _ && negb _) eqn:Hn; [done|].
  intros [= <-]. by exists d, ty.
Qed.

Lemma parameters_loop_Ok modaliases schema allow_named args :
  ∀ argi pi pi',
  parameters_loop modaliases schema allow_named argi args pi = Ok pi' →
  ∃ ds tys,
    Forall2 (fun a d => source_of_default a = Ok d) args ds ∧
    Forall2 (fun a ty => ast_to_typeref (arg_type a) modaliases schema = Ok ty)
            args tys ∧
    pi' = mkParametersInfo
            (paramnames pi ++ (arg_name <$> args)) (paramdefaults pi ++ ds)
            (paramtypes pi ++ tys) (paramtypemods pi ++ (arg_typemod <$> args))
            (paramkinds pi ++ (arg_kind <$> args))
            (variadic_scan argi (arg_kind <$> args) (variadic pi)).
Proof.
  induction args as [|arg rest IH]; intros argi pi pi'; simpl.
  - intros [= <-]. exists [], []. repeat split; try constructor.
    destruct pi; simpl. by rewrite !app_nil_r.
  - destruct (parameters_step _ _ _ _ _ _) as [pi1|e] eqn:Hstep; simpl; [|done].
    intros Hloop.
    apply parameters_step_Ok in Hstep as (d & ty & Hd & Hty & _ & ->).
    apply IH in Hloop as (ds & tys & Hds & Htys & ->); simpl.
    exists (d :: ds), (ty :: tys).
    repeat split; try by constructor.
    by rewrite <- !app_assoc.
Qed.

Lemma parameters_from_ast_Ok args modaliases schema allow_named pi :
  parameters_from_ast args modaliases schema allow_named = Ok pi →
  ∃ ds tys,
    Forall2 (fun a d => source_of_default a = Ok d) args ds ∧
    Forall2 (fun a ty => ast_to_typeref (arg_type a) modaliases schema = Ok ty)
            args tys ∧
    pi = mkParametersInfo (arg_name <$> args) ds tys (arg_typemod <$> args)
           (arg_kind <$> args) (variadic_scan 0 (arg_kind <$> args) None).
Proof.
  intros H. by apply parameters_loop_Ok in H.
Qed.

Lemma is_VARIADIC_true k : is_VARIADIC k = true ↔ k = VARIADIC.
Proof. by destruct k. Qed.

Lemma is_NAMED_ONLY_true k : is_NAMED_ONLY k = true ↔ k = NAMED_ONLY.
Proof. by destruct k. Qed.

(** [variadic_scan] ends on the last [VARIADIC] entry, or keeps what it
    started with when there is none. *)
Lemma variadic_scan_last kinds :
  ∀ argi v,
  match variadic_scan argi kinds v with
  | Some i =>
      (∃ k, i = argi + k ∧ kinds !! k = Some VARIADIC ∧
            ∀ j kd, k < j → kinds !! j = Some kd → kd ≠ VARIADIC) ∨
      (v = Some i ∧ Forall (fun kd => kd ≠ VARIADIC) kinds)
  | None => v = None ∧ Forall (fun kd => kd ≠ VARIADIC) kinds
  end.
Proof.
  induction kinds as [|kd kinds IH]; intros argi v; simpl.
  - destruct v; auto.
  - specialize (IH (S argi) (if is_VARIADIC kd then Some argi else v)).
    destruct (variadic_scan _ _ _) as [i|].
    + destruct IH as [(k & -> & Hk & Hlater)|[Hv Hnone]].
      * left. exists (S k). split; [lia|]. split; [done|].
        intros [|j] kd' Hj; [lia|]. simpl. apply Hlater. lia.
      * destruct (is_VARIADIC kd) eqn:Hkd.
        -- apply is_VARIADIC_true in Hkd as ->. injection Hv as <-.
           left. exists 0. split; [lia|]. split; [done|].
           intros [|j] kd' Hj; [lia|]. simpl. intros Hin.
           rewrite Forall_forall in Hnone. apply Hnone.
           by eapply list_elem_of_lookup_2.
        -- right. split; [done|]. constructor; [|done].
           intros ->. discriminate.
    + destruct IH as [Hv Hnone]. destruct (is_VARIADIC kd) eqn:Hkd; [done|].
      split; [done|]. constructor; [|done]. intros ->. discriminate.
Qed.

(** When the collaborators succeed the loop ends in one of two ways. *)
Lemma parameters_loop_total modaliases schema allow_named args :
  Forall (collaborators_succeed modaliases schema) args →
  ∀ argi pi,
  (allow_named = true ∨ Forall (fun a => arg_kind a ≠ NAMED_ONLY) args →
   ∃ pi', parameters_loop modaliases schema allow_named argi args pi = Ok pi') ∧
  (allow_named = false → Exists (fun a => arg_kind a = NAMED_ONLY) args →
   parameters_loop modaliases schema allow_named argi args pi
   = Raise InvalidParameterKindError).
Proof.
  induction 1 as [|arg rest [[ty Hty] [d Hd]] _ IH]; intros argi pi.
  - split; [by eexists|]. intros _ Hex. by apply Exists_nil in Hex.
  - simpl. unfold parameters_step. rewrite Hd, Hty. simpl.
    destruct (is_NAMED_ONLY (arg_kind arg)) eqn:Hk; simpl.
    + apply is_NAMED_ONLY_true in Hk.
      destruct allow_named; simpl.
      * split; [|done]. intros _. apply IH. by left.
      * split; [|done]. intros [|Hall]; [done|].
        by apply Forall_cons in Hall as [? _].
    + assert (arg_kind arg ≠ NAMED_ONLY) as Hne.
      { intros Heq. apply is_NAMED_ONLY_true in Heq. congruence. }
      split.
      * intros [Han|Hall]; apply IH; [by left|].
        right. by apply Forall_cons in Hall as [_ ?].
      * intros Han Hex. apply IH; [done|].
        by apply Exists_cons in Hex as [?|?].
Qed.

(** The returned kinds have as many [VARIADIC] entries as the arguments:
    the extraction does not look at how many there are. *)
Lemma count_VARIADIC_extracted args modaliases schema allow_named pi :
  parameters_from_ast args modaliases schema allow_named = Ok pi →
  count_VARIADIC (paramkinds pi) = count_VARIADIC (arg_kind <$> args).
Proof.
  intros H. by apply parameters_from_ast_Ok in H as (ds & tys & _ & _ & ->).
Qed.

(** ** Claims on parameter extraction *)

(** C6, as the code has it. For a parameter list on which the
    collaborators succeed and in which named-only arguments are allowed or
    absent, [parameters_from_ast] returns; the four sequences of names,
    types, type modifiers and kinds have the length of the argument list
    and follow its order. The extraction does not count VARIADIC
    arguments: the returned kinds hold as many VARIADIC entries as the
    argument list, be that none, one or more. *)
Theorem extract_parameters_sequences args modaliases schema allow_named :
  Forall (collaborators_succeed modaliases schema) args →
  allow_named = true ∨ Forall (fun a => arg_kind a ≠ NAMED_ONLY) args →
  ∃ pi,
    parameters_from_ast args modaliases schema allow_named = Ok pi ∧
    length (paramnames pi) = length args ∧
    length (paramtypes pi) = length args ∧
    length (paramtypemods pi) = length args ∧
    length (paramkinds pi) = length args ∧
    paramnames pi = arg_name <$> args ∧
    Forall2 (fun a ty => ast_to_typeref (arg_type a) modaliases schema = Ok ty)
            args (paramtypes pi) ∧
    paramtypemods pi = arg_typemod <$> args ∧
    paramkinds pi = arg_kind <$> args ∧
    count_VARIADIC (paramkinds pi) = count_VARIADIC (arg_kind <$> args).
Proof.
  intros Hcol Hnamed.
  destruct (parameters_loop_total modaliases schema allow_named args Hcol 0
              (mkParametersInfo [] [] [] [] [] None)) as [Hok _].
  destruct (Hok Hnamed) as [pi Hpi]. exists pi. split; [done|].
  apply parameters_from_ast_Ok in Hpi as (ds & tys & Hds & Htys & ->); simpl.
  rewrite !length_fmap, <- (Forall2_length _ _ _ Htys).
  repeat split; done.
Qed.

(** C7, as the code has it. The [variadic] field of the returned
    [ParametersInfo] is the index of the last argument whose kind is
    VARIADIC, and none when no argument is VARIADIC. *)
Theorem variadic_is_last_VARIADIC args modaliases schema allow_named pi :
  parameters_from_ast args modaliases schema allow_named = Ok pi →
  match variadic pi with
  | Some i =>
      (∃ a, args !! i = Some a ∧ arg_kind a = VARIADIC) ∧
      (∀ j a, i < j → args !! j = Some a → arg_kind a ≠ VARIADIC)
  | None => ∀ a, a ∈ args → arg_kind a ≠ VARIADIC
  end.
Proof.
  intros Hpi.
  apply parameters_from_ast_Ok in Hpi as (ds & tys & _ & _ & ->); simpl.
  pose proof (variadic_scan_last (arg_kind <$> args) 0 None) as Hscan.
  destruct (variadic_scan _ _ _) as [i|].
  - destruct Hscan as [(k & -> & Hk & Hlater)|[? _]]; [|done]. simpl.
    apply list_lookup_fmap_Some in Hk as (a & Ha & Hkd). split; [by exists a|].
    intros j a' Hj Hja'. apply (Hlater j); [done|].
    by rewrite list_lookup_fmap, Hja'.
  - destruct Hscan as [_ Hnone]. intros a Ha.
    rewrite Forall_forall in Hnone. apply Hnone.
    apply list_elem_of_fmap. by exists a.
Qed.

(** C8. When the collaborators succeed, [parameters_from_ast] raises
    [InvalidParameterKindError] exactly when [allow_named] is false and
    some argument is NAMED_ONLY; with [allow_named] true it returns, so
    NAMED_ONLY arguments are accepted. *)
Theorem named_only_rejected_iff args modaliases schema allow_named :
  Forall (collaborators_succeed modaliases schema) args →
  (parameters_from_ast args modaliases schema allow_named
   = Raise InvalidParameterKindError
   ↔ allow_named = false ∧ ∃ a, a ∈ args ∧ arg_kind a = NAMED_ONLY) ∧
  (allow_named = true →
   ∃ pi, parameters_from_ast args modaliases schema allow_named = Ok pi).
Proof.
  intros Hcol.
  destruct (parameters_loop_total modaliases schema allow_named args Hcol 0
              (mkParametersInfo [] [] [] [] [] None)) as [Hok Hraise].
  fold (parameters_from_ast args modaliases schema allow_named) in Hok, Hraise.
  split; [split|].
  - intros Hr. destruct allow_named.
    + destruct Hok as [pi Hpi]; [by left|]. congruence.
    + split; [done|]. apply Exists_exists.
      destruct (decide (Exists (fun a => arg_kind a = NAMED_ONLY) args))
        as [|Hno]; [done|].
      apply not_Exists_Forall in Hno; [|intros a; apply _].
      destruct Hok as [pi Hpi]; [by right|]. congruence.
  - intros [Han Hex]. apply Hraise; [done|]. by apply Exists_exists.
  - intros Han. apply Hok. by left.
Qed.

(** ** Claims on the overload-qualified name *)

Lemma fold_left_quals_step pts :
  ∀ quals, fold_left quals_step pts quals = quals ++ qualifier_tokens pts.
Proof.
  unfold qualifier_tokens.
  induction pts as [|pt pts IH]; intros quals; simpl.
  - by rewrite app_nil_r.
  - rewrite IH. destruct pt as [cn|n sname et|n]; simpl.
    + by rewrite <- app_assoc.
    + destruct et; simpl; rewrite <- !app_assoc; reflexivity.
    + by rewrite <- app_assoc.
Qed.

Lemma function_quals_Some pts :
  function_quals (Some pts) = qualifier_tokens pts.
Proof.
  destruct pts as [|pt pts]; [done|].
  unfold function_quals. by rewrite fold_left_quals_step.
Qed.

(** C4. The tokens the loop of [_get_function_fullname] collects are, per
    parameter type and in order, the ones of [qualifier_tokens]: the class
    name of a forward reference; for a container its schema name and then
    the class name of its element when that is a forward reference, the
    element's name otherwise; the name of any other type. The name built
    from them keeps the module of the base name. *)
Theorem fullname_tokens nm pts :
  function_quals (Some pts) = qualifier_tokens pts ∧
  _get_function_fullname nm (Some pts)
  = mkName (module nm) (get_specialized_name nm (qualifier_tokens pts)) ∧
  module (_get_function_fullname nm (Some pts)) = module nm.
Proof.
  unfold _get_function_fullname. by rewrite function_quals_Some.
Qed.

(** C3. For a specialization operation that is injective in its qualifier
    tokens, as the specification asks of it, the qualified name of a base
    name is a function of the parameter types, the same for parameter
    types with the same tokens, and different for different token
    sequences. *)
Theorem fullname_injective_on_tokens nm pts1 pts2 :
  (∀ quals1 quals2,
     get_specialized_name nm quals1 = get_specialized_name nm quals2 →
     quals1 = quals2) →
  (pts1 = pts2 →
   _get_function_fullname nm pts1 = _get_function_fullname nm pts2) ∧
  (function_quals pts1 = function_quals pts2 →
   _get_function_fullname nm pts1 = _get_function_fullname nm pts2) ∧
  (function_quals pts1 ≠ function_quals pts2 →
   _get_function_fullname nm pts1 ≠ _get_function_fullname nm pts2).
Proof.
  intros Hinj. unfold _get_function_fullname. repeat split.
  - by intros ->.
  - by intros ->.
  - intros Hne [= Heq]. by apply Hne, Hinj.
Qed.

(** C10. Without parameter types, be the list absent or empty, the
    qualified name is still made by the specialization operation, called
    with no token, and keeps the module of the base name. *)
Theorem fullname_without_parameters nm :
  function_quals None = [] ∧
  function_quals (Some []) = [] ∧
  _get_function_fullname nm None
  = mkName (module nm) (get_specialized_name nm []) ∧
  _get_function_fullname nm (Some [])
  = mkName (module nm) (get_specialized_name nm []) ∧
  module (_get_function_fullname nm None) = module nm ∧
  module (_get_function_fullname nm (Some [])) = module nm.
Proof. done. Qed.

(** ** Claims on the command tree of CREATE FUNCTION *)

(** Case analysis on a successful [CreateFunction__cmd_tree_from_ast]: it
    names the base name [nm] and the extraction result [pi] and leaves the
    command as a concrete list of property commands. *)
Ltac compiled Hcmd nm pi :=
  unfold CreateFunction__cmd_tree_from_ast,
    CreateNamedObject__cmd_tree_from_ast in Hcmd;
  let Hnm := fresh "Hnm" in
  let Hpi := fresh "Hpi" in
  let Hrt := fresh "Hrt" in
  let Hiv := fresh "Hiv" in
  destruct (NamedObjectCommand__classname_from_ast _ _ _) as [nm|] eqn:Hnm;
    [|discriminate Hcmd];
  simpl in Hcmd;
  destruct (parameters_from_ast _ _ _ _) as [pi|] eqn:Hpi;
    [|discriminate Hcmd];
  simpl in Hcmd;
  destruct (ast_to_typeref _ _ _) as [?rt|] eqn:Hrt; [|discriminate Hcmd];
  simpl in Hcmd;
  destruct (cf_initial_value _) as [?e|];
    [destruct (generate_source _) as [?iv|] eqn:Hiv; [|discriminate Hcmd]|];
  simpl in Hcmd;
  (destruct (cf_code _) as [?c|] eqn:?Hcode;
     [destruct (from_name _) as [?fn|] eqn:?Hfrom|]);
  injection Hcmd as <-.

(** The properties of a compiled command that [get_struct_properties] and
    [_add_to_schema] read. *)
Lemma compiled_properties astnode context schema cmd :
  CreateFunction__cmd_tree_from_ast astnode context schema = Ok cmd →
  ∃ nm pi,
    NamedObjectCommand__classname_from_ast (cf_name astnode) context schema
    = Ok nm ∧
    parameters_from_ast (cf_args astnode) (modaliases context) schema true
    = Ok pi ∧
    ∀ schema',
    let props := NamedObjectCommand_get_struct_properties cmd schema' in
    props !! "name" = Some (VName nm) ∧
    props !! "paramnames" = Some (VStrList (paramnames pi)) ∧
    props !! "paramtypes" = Some (VTypeList (paramtypes pi)) ∧
    props !! "paramdefaults" = Some (VExprList (paramdefaults pi)).
Proof.
  intros Hcmd. compiled Hcmd nm pi; exists nm, pi.
  all: split; [done|]; split; [done|]; intros schema'.
  all: unfold NamedObjectCommand_get_struct_properties; simpl.
  all: by simplify_map_eq.
Qed.

(** C5. The name [DeleteFunction__classname_from_ast] computes for a DROP
    statement, by extraction with named-only parameters allowed and
    qualification, is the name [CreateFunction_get_struct_properties] gives
    to the command compiled from a CREATE statement with the same base
    name and the same parameter list. *)
Theorem delete_name_is_create_name cnode dnode context schema cmd :
  cf_name cnode = df_name dnode →
  cf_args cnode = df_args dnode →
  CreateFunction__cmd_tree_from_ast cnode context schema = Ok cmd →
  ∃ props fullname,
    CreateFunction_get_struct_properties cmd schema = Ok props ∧
    props !! "name" = Some (VName fullname) ∧
    DeleteFunction__classname_from_ast dnode context schema = Ok fullname.
Proof.
  intros Hname Hargs Hcmd.
  apply compiled_properties in Hcmd as (nm & pi & Hnm & Hpi & Hprops).
  destruct (Hprops schema) as (Hn & _ & Hpts & _).
  exists (<["name" := VName (_get_function_fullname nm (Some (paramtypes pi)))]>
            (NamedObjectCommand_get_struct_properties cmd schema)),
         (_get_function_fullname nm (Some (paramtypes pi))).
  split; [|split].
  - unfold CreateFunction_get_struct_properties, getitem, get_paramtypes.
    by rewrite Hn, Hpts.
  - apply lookup_insert_eq.
  - unfold DeleteFunction__classname_from_ast.
    by rewrite <- Hname, <- Hargs, Hnm, Hpi.
Qed.

(** C9, as the code has it. When the statement carries a body the command
    records its language, whether or not the body names a delegate; with a
    delegate it records the name in [from_function] and no [code]; without
    one it records the inline text in [code] and no [from_function].
    Without a body none of the three is recorded. [from_function] and
    [code] are never both recorded. *)
Theorem body_properties astnode context schema cmd :
  CreateFunction__cmd_tree_from_ast astnode context schema = Ok cmd →
  match cf_code astnode with
  | Some c =>
      property_values cmd "language" = [VLanguage (language c)] ∧
      match from_name c with
      | Some fn =>
          property_values cmd "from_function" = [VStr fn] ∧
          property_values cmd "code" = []
      | None =>
          property_values cmd "code" = [VOptStr (code c)] ∧
          property_values cmd "from_function" = []
      end
  | None =>
      property_values cmd "language" = [] ∧
      property_values cmd "from_function" = [] ∧
      property_values cmd "code" = []
  end ∧
  (property_values cmd "from_function" = [] ∨ property_values cmd "code" = []).
Proof.
  intros Hcmd. compiled Hcmd nm pi.
  all: rewrite ?Hfrom; unfold property_values; simpl; auto.
Qed.

(** ** Claims on adding the function to the schema *)

(** The loop over the zipped parameters either passes or raises the error
    of a polymorphic parameter with a default, and raises exactly when
    there is such a parameter. *)
Lemma check_any_defaults_spec pns :
  ∀ pts pds,
  length pns = length pts →
  (check_any_defaults pns pts pds = Ok () ∧
   ¬ polymorphic_with_default pts pds) ∨
  (check_any_defaults pns pts pds = Raise PolymorphicDefaultError ∧
   polymorphic_with_default pts pds).
Proof.
  induction pns as [|pn pns IH]; intros [|pt pts] pds Hlen; try done.
  - left. split; [done|]. by intros (i & pt & src & Hpt & _).
  - destruct pds as [|pd pds].
    { left. split; [done|]. by intros (i & ? & src & _ & _ & Hpd). }
    simpl. destruct (is_any pt) eqn:Hany; simpl.
    + case_bool_decide as Hpd.
      * right. split; [done|]. destruct pd as [src|]; [|done].
        by exists 0, pt, src.
      * destruct (IH pts pds) as [[-> Hno]|[-> Hyes]]; [by injection Hlen|..].
        -- left. split; [done|]. intros ([|i] & pt' & src & Hpt & Ha & Hd).
           ++ injection Hd as ->. discriminate Hpd.
           ++ apply Hno. by exists i, pt', src.
        -- right. split; [done|]. destruct Hyes as (i & pt' & src & ? & ? & ?).
           by exists (S i), pt', src.
    + destruct (IH pts pds) as [[-> Hno]|[-> Hyes]]; [by injection Hlen|..].
      * left. split; [done|]. intros ([|i] & pt' & src & Hpt & Ha & Hd).
        -- injection Hpt as <-. congruence.
        -- apply Hno. by exists i, pt', src.
      * right. split; [done|]. destruct Hyes as (i & pt' & src & ? & ? & ?).
        by exists (S i), pt', src.
Qed.

(** What [CreateFunction__add_to_schema] does with a compiled command, in
    terms of the base name and the extracted parameters. *)
Lemma add_to_schema_compiled astnode context schema0 cmd nm pi schema :
  CreateFunction__cmd_tree_from_ast astnode context schema0 = Ok cmd →
  NamedObjectCommand__classname_from_ast (cf_name astnode) context schema0
  = Ok nm →
  parameters_from_ast (cf_args astnode) (modaliases context) schema0 true
  = Ok pi →
  let fullname := _get_function_fullname nm (Some (paramtypes pi)) in
  CreateFunction__add_to_schema cmd schema =
  match check_any_defaults (paramnames pi) (paramtypes pi) (paramdefaults pi) with
  | Raise e => (schema, Raise e)
  | Ok _ =>
      match schema !! Name_str fullname with
      | Some _ => (schema, Raise DuplicateSignatureError)
      | None =>
          (<[Name_str fullname :=
               <["name" := VName fullname]>
                 (NamedObjectCommand_get_struct_properties cmd schema)]> schema,
           Ok ())
      end
  end.
Proof.
  intros Hcmd Hnm Hpi fullname.
  apply compiled_properties in Hcmd as (nm' & pi' & Hnm' & Hpi' & Hprops).
  destruct (Hprops schema) as (Hn & Hpns & Hpts & Hpds).
  rewrite Hnm in Hnm'. rewrite Hpi in Hpi'.
  injection Hnm' as <-. injection Hpi' as <-.
  unfold CreateFunction__add_to_schema, getitem, get_paramtypes.
  rewrite Hn, Hpns, Hpts, Hpds. simpl.
  unfold mbind, SchemaM_bind, lift. simpl.
  destruct (check_any_defaults _ _ _) as [[]|e]; [|done].
  unfold schema_get. fold fullname.
  destruct (schema !! Name_str fullname) as [func|]; [done|].
  unfold CreateNamedObject__add_to_schema,
    CreateFunction_get_struct_properties, getitem, get_paramtypes.
  rewrite Hn, Hpts. simpl. fold fullname.
  unfold mbind, SchemaM_bind, lift. simpl.
  by rewrite lookup_insert_eq.
Qed.

Lemma extracted_lengths args modaliases schema allow_named pi :
  parameters_from_ast args modaliases schema allow_named = Ok pi →
  length (paramnames pi) = length (paramtypes pi).
Proof.
  intros H. apply parameters_from_ast_Ok in H as (ds & tys & _ & Htys & ->).
  simpl. rewrite length_fmap. by eapply Forall2_length.
Qed.

(** C1, as the code has it. When the qualified name of a compiled CREATE
    command already maps to an object of the schema, adding the function
    raises and leaves the schema as it was; the error is
    [DuplicateSignatureError] unless a polymorphic parameter carries a
    default, which is checked first. *)
Theorem duplicate_signature_rejected astnode context schema0 cmd nm pi schema :
  CreateFunction__cmd_tree_from_ast astnode context schema0 = Ok cmd →
  NamedObjectCommand__classname_from_ast (cf_name astnode) context schema0
  = Ok nm →
  parameters_from_ast (cf_args astnode) (modaliases context) schema0 true
  = Ok pi →
  is_Some (schema !! Name_str (_get_function_fullname nm (Some (paramtypes pi)))) →
  (CreateFunction__add_to_schema cmd schema).1 = schema ∧
  (∃ e, (CreateFunction__add_to_schema cmd schema).2 = Raise e) ∧
  (¬ polymorphic_with_default (paramtypes pi) (paramdefaults pi) →
   CreateFunction__add_to_schema cmd schema
   = (schema, Raise DuplicateSignatureError)).
Proof.
  intros Hcmd Hnm Hpi [func Hfunc].
  rewrite (add_to_schema_compiled _ _ _ _ _ _ schema Hcmd Hnm Hpi), Hfunc.
  destruct (check_any_defaults_spec (paramnames pi) (paramtypes pi)
              (paramdefaults pi)) as [[-> Hno]|[-> Hyes]];
    [by eapply extracted_lengths|..]; simpl.
  - split; [done|]. split; [by eexists|done].
  - split; [done|]. split; [by eexists|done].
Qed.

(** C2. When a parameter of a compiled CREATE command has the polymorphic
    type and a default, adding the function raises
    [PolymorphicDefaultError] and leaves the schema as it was; when no
    parameter is so, that error is not raised. *)
Theorem polymorphic_default_rejected astnode context schema0 cmd nm pi schema :
  CreateFunction__cmd_tree_from_ast astnode context schema0 = Ok cmd →
  NamedObjectCommand__classname_from_ast (cf_name astnode) context schema0
  = Ok nm →
  parameters_from_ast (cf_args astnode) (modaliases context) schema0 true
  = Ok pi →
  (polymorphic_with_default (paramtypes pi) (paramdefaults pi) →
   CreateFunction__add_to_schema cmd schema
   = (schema, Raise PolymorphicDefaultError)) ∧
  (¬ polymorphic_with_default (paramtypes pi) (paramdefaults pi) →
   (CreateFunction__add_to_schema cmd schema).2 ≠ Raise PolymorphicDefaultError).
Proof.
  intros Hcmd Hnm Hpi.
  rewrite (add_to_schema_compiled _ _ _ _ _ _ schema Hcmd Hnm Hpi).
  destruct (check_any_defaults_spec (paramnames pi) (paramtypes pi)
              (paramdefaults pi)) as [[-> Hno]|[-> Hyes]];
    [by eapply extracted_lengths|..]; split; try done.
  intros _. by destruct (schema !! _).
Qed.

(** ** Further properties of parameter extraction *)

Lemma parameters_loop_app modaliases schema allow_named pre :
  ∀ rest argi pi,
  parameters_loop modaliases schema allow_named argi (pre ++ rest) pi =
  pi' ← parameters_loop modaliases schema allow_named argi pre pi;
  parameters_loop modaliases schema allow_named (argi + length pre) rest pi'.
Proof.
  induction pre as [|arg pre IH]; intros rest argi pi; simpl.
  - by rewrite Nat.add_0_r.
  - destruct (parameters_step _ _ _ _ _ _) as [pi1|e]; simpl; [|done].
    by rewrite IH, Nat.add_succ_r.
Qed.

Lemma parameters_loop_Ok_kinds modaliases schema args :
  ∀ argi pi pi',
  parameters_loop modaliases schema false argi args pi = Ok pi' →
  Forall (fun a => arg_kind a ≠ NAMED_ONLY) args.
Proof.
  induction args as [|arg rest IH]; intros argi pi pi'; simpl; [done|].
  destruct (parameters_step _ _ _ _ _ _) as [pi1|e] eqn:Hstep; simpl; [|done].
  intros Hloop. apply parameters_step_Ok in Hstep as (_ & _ & _ & _ & Hk & _).
  constructor; [|by eapply IH].
  intros Hkind. rewrite Hkind in Hk. discriminate Hk.
Qed.

Lemma parameters_loop_allow_named modaliases schema args :
  ∀ argi pi,
  Forall (fun a => arg_kind a ≠ NAMED_ONLY) args →
  parameters_loop modaliases schema false argi args pi
  = parameters_loop modaliases schema true argi args pi.
Proof.
  induction args as [|arg rest IH]; intros argi pi Hall; simpl; [done|].
  apply Forall_cons in Hall as [Hk Hrest].
  assert (parameters_step modaliases schema false argi arg pi
          = parameters_step modaliases schema true argi arg pi) as ->.
  { unfold parameters_step. destruct (arg_kind arg); try done. }
  destruct (parameters_step _ _ _ _ _ _); simpl; [by apply IH|done].
Qed.

Lemma count_VARIADIC_cons k kinds :
  count_VARIADIC (k :: kinds)
  = ((if is_VARIADIC k then 1 else 0) + count_VARIADIC kinds)%nat.
Proof. unfold count_VARIADIC. simpl. by destruct (is_VARIADIC k). Qed.

Lemma count_VARIADIC_0 kinds :
  count_VARIADIC kinds = 0 ↔ Forall (fun kd => kd ≠ VARIADIC) kinds.
Proof.
  induction kinds as [|k kinds IH]; [done|].
  rewrite count_VARIADIC_cons, Forall_cons, <- IH.
  destruct k; simpl; split; try lia; try (intros [? ?]; done).
  all: intros ->; split; done.
Qed.

Lemma variadic_scan_first kinds :
  ∀ argi v,
  (count_VARIADIC kinds ≤ 1)%nat →
  variadic_scan argi kinds v
  = match first_VARIADIC kinds with
    | Some k => Some (argi + k)%nat
    | None => v
    end.
Proof.
  induction kinds as [|kd kinds IH]; intros argi v Hc; [done|].
  rewrite count_VARIADIC_cons in Hc. simpl.
  rewrite IH by (destruct (is_VARIADIC kd); lia).
  destruct (is_VARIADIC kd) eqn:Hkd; simpl.
  - assert (first_VARIADIC kinds = None) as ->; [|by rewrite Nat.add_0_r].
    assert (count_VARIADIC kinds = 0) as H0 by lia.
    apply count_VARIADIC_0 in H0. clear -H0.
    induction H0 as [|k kinds Hk _ IHk]; [done|]. simpl.
    destruct (is_VARIADIC k) eqn:E; [by apply is_VARIADIC_true in E|].
    by rewrite IHk.
  - destruct (first_VARIADIC kinds); simpl; [|done]. f_equal. lia.
Qed.

Lemma extracted_collaborators_succeed args modaliases schema allow_named pi :
  parameters_from_ast args modaliases schema allow_named = Ok pi →
  Forall (collaborators_succeed modaliases schema) args.
Proof.
  intros Hpi.
  apply parameters_from_ast_Ok in Hpi as (ds & tys & Hds & Htys & _).
  apply Forall_forall. intros a Ha.
  apply list_elem_of_lookup in Ha as [i Hi].
  destruct (Forall2_lookup_l _ _ _ _ _ Hds Hi) as (d & _ & Hd).
  destruct (Forall2_lookup_l _ _ _ _ _ Htys Hi) as (ty & _ & Hty).
  split; by eexists.
Qed.

(** X1. The returned defaults go with the arguments one by one: none for
    an argument without a default, the rendered source of the default
    otherwise. *)
Theorem extracted_defaults args modaliases schema allow_named pi :
  parameters_from_ast args modaliases schema allow_named = Ok pi →
  length (paramdefaults pi) = length args ∧
  ∀ i a, args !! i = Some a →
    match arg_default a with
    | None => paramdefaults pi !! i = Some None
    | Some e =>
        ∃ src, generate_source e = Ok src ∧
               paramdefaults pi !! i = Some (Some src)
    end.
Proof.
  intros H. apply parameters_from_ast_Ok in H as (ds & tys & Hds & _ & ->).
  simpl. split; [symmetry; by eapply Forall2_length|].
  intros i a Ha.
  destruct (Forall2_lookup_l _ _ _ _ _ Hds Ha) as (d & Hd & Hsrc).
  unfold source_of_default in Hsrc. destruct (arg_default a) as [e|].
  - destruct (generate_source e) as [src|]; [|done].
    injection Hsrc as <-. by exists src.
  - by injection Hsrc as <-.
Qed.

(** X2. The arguments are worked off in order, and within an argument the
    default is rendered before the type is resolved, which comes before
    the test for NAMED_ONLY: when all goes well up to an argument on which
    a collaborator raises, the extraction raises that error, whatever the
    kind of the argument and whatever follows it. *)
Theorem extraction_raises_first_failure
    pre arg post modaliases schema allow_named e :
  Forall (collaborators_succeed modaliases schema) pre →
  allow_named = true ∨ Forall (fun a => arg_kind a ≠ NAMED_ONLY) pre →
  (source_of_default arg = Raise e →
   parameters_from_ast (pre ++ arg :: post) modaliases schema allow_named
   = Raise e) ∧
  ((∃ d, source_of_default arg = Ok d) →
   ast_to_typeref (arg_type arg) modaliases schema = Raise e →
   parameters_from_ast (pre ++ arg :: post) modaliases schema allow_named
   = Raise e).
Proof.
  intros Hcol Hnamed. unfold parameters_from_ast.
  rewrite parameters_loop_app.
  destruct (parameters_loop_total modaliases schema allow_named pre Hcol 0
              (mkParametersInfo [] [] [] [] [] None)) as [Hok _].
  destruct (Hok Hnamed) as [pi1 ->]. simpl. unfold parameters_step.
  split.
  - by intros ->.
  - by intros [d ->] ->.
Qed.

(** X3. The extraction returns exactly when the collaborators succeed on
    every argument and named-only arguments are allowed or absent. *)
Theorem extraction_returns_iff args modaliases schema allow_named :
  (∃ pi, parameters_from_ast args modaliases schema allow_named = Ok pi) ↔
  Forall (collaborators_succeed modaliases schema) args ∧
  (allow_named = true ∨ Forall (fun a => arg_kind a ≠ NAMED_ONLY) args).
Proof.
  split.
  - intros [pi Hpi]. split.
    + by eapply extracted_collaborators_succeed.
    + destruct allow_named; [by left|right].
      by eapply parameters_loop_Ok_kinds.
  - intros [Hcol Hnamed].
    by apply (parameters_loop_total modaliases schema allow_named args Hcol 0
                (mkParametersInfo [] [] [] [] [] None)).
Qed.

(** X4. Forbidding named-only arguments only turns results into errors: a
    result obtained with [allow_named] false is the result with
    [allow_named] true, and without NAMED_ONLY arguments the flag makes no
    difference at all. *)
Theorem allow_named_only_rejects args modaliases schema :
  (∀ pi, parameters_from_ast args modaliases schema false = Ok pi →
         parameters_from_ast args modaliases schema true = Ok pi) ∧
  (Forall (fun a => arg_kind a ≠ NAMED_ONLY) args →
   parameters_from_ast args modaliases schema false
   = parameters_from_ast args modaliases schema true).
Proof.
  split.
  - intros pi Hpi. unfold parameters_from_ast in *.
    rewrite <- parameters_loop_allow_named; [done|].
    by eapply parameters_loop_Ok_kinds.
  - apply parameters_loop_allow_named.
Qed.

(** X5. The [variadic] field is none exactly when the returned kinds hold
    no VARIADIC entry, and an index it gives is the place of a VARIADIC
    entry of the returned kinds. *)
Theorem variadic_points_at_VARIADIC args modaliases schema allow_named pi :
  parameters_from_ast args modaliases schema allow_named = Ok pi →
  (variadic pi = None ↔ count_VARIADIC (paramkinds pi) = 0) ∧
  (∀ i, variadic pi = Some i → paramkinds pi !! i = Some VARIADIC).
Proof.
  intros H. apply parameters_from_ast_Ok in H as (ds & tys & _ & _ & ->).
  simpl. pose proof (variadic_scan_last (arg_kind <$> args) 0 None) as Hscan.
  destruct (variadic_scan _ _ _) as [i|].
  - destruct Hscan as [(k & -> & Hk & _)|[? _]]; [|done]. simpl. split.
    + split; [done|]. intros H0. apply count_VARIADIC_0 in H0.
      rewrite Forall_forall in H0. exfalso. eapply H0; [|done].
      by eapply list_elem_of_lookup_2.
    + by intros ? [= <-].
  - destruct Hscan as [_ Hnone]. split; [|done].
    split; [|done]. intros _. by apply count_VARIADIC_0.
Qed.

(** X6. With at most one VARIADIC argument the [variadic] field is the
    index of the first VARIADIC entry of the returned kinds. *)
Theorem variadic_is_first_when_unique args modaliases schema allow_named pi :
  parameters_from_ast args modaliases schema allow_named = Ok pi →
  (count_VARIADIC (arg_kind <$> args) ≤ 1)%nat →
  variadic pi = first_VARIADIC (paramkinds pi).
Proof.
  intros H Hc. apply parameters_from_ast_Ok in H as (ds & tys & _ & _ & ->).
  simpl. rewrite variadic_scan_first by done.
  by destruct (first_VARIADIC _).
Qed.

(** ** Further properties of the command tree *)

(** X7. Compiling a CREATE statement succeeds exactly when the base name is
    found, the collaborators succeed on every argument, the return type
    resolves and the initial value, if there is one, renders. Neither the
    kinds of the arguments nor the body can make it fail. *)
Theorem compile_succeeds_iff astnode context schema :
  (∃ cmd, CreateFunction__cmd_tree_from_ast astnode context schema = Ok cmd) ↔
  (∃ nm, NamedObjectCommand__classname_from_ast (cf_name astnode) context
           schema = Ok nm) ∧
  Forall (collaborators_succeed (modaliases context) schema) (cf_args astnode) ∧
  (∃ rt, ast_to_typeref (cf_returning astnode) (modaliases context) schema
         = Ok rt) ∧
  (∀ e, cf_initial_value astnode = Some e → ∃ iv, generate_source e = Ok iv).
Proof.
  split.
  - intros [cmd Hcmd].
    unfold CreateFunction__cmd_tree_from_ast,
      CreateNamedObject__cmd_tree_from_ast in Hcmd.
    destruct (NamedObjectCommand__classname_from_ast _ _ _) as [nm|];
      [|discriminate Hcmd].
    simpl in Hcmd.
    destruct (parameters_from_ast _ _ _ _) as [pi|] eqn:Hpi;
      [|discriminate Hcmd].
    simpl in Hcmd.
    destruct (ast_to_typeref _ _ _) as [rt|]; [|discriminate Hcmd].
    simpl in Hcmd.
    split; [by eexists|]. split; [by eapply extracted_collaborators_succeed|].
    split; [by eexists|]. intros e He. rewrite He in Hcmd.
    destruct (generate_source e) as [iv|]; [by eexists|discriminate Hcmd].
  - intros ([nm Hnm] & Hcol & [rt Hrt] & Hiv).
    unfold CreateFunction__cmd_tree_from_ast,
      CreateNamedObject__cmd_tree_from_ast.
    rewrite Hnm. simpl.
    destruct (parameters_loop_total (modaliases context) schema true
                (cf_args astnode) Hcol 0
                (mkParametersInfo [] [] [] [] [] None)) as [Hok _].
    destruct Hok as [pi Hpi]; [by left|].
    fold (parameters_from_ast (cf_args astnode) (modaliases context) schema true)
      in Hpi.
    rewrite Hpi. simpl. rewrite Hrt. simpl.
    destruct (cf_initial_value astnode) as [e|]; [|by eexists].
    destruct (Hiv e eq_refl) as [iv ->]. by eexists.
Qed.

(** X8. A compiled CREATE command targets the base name of the statement
    and opens with the eight signature properties in a fixed order; no
    property is set twice; the names, type modifiers and kinds are those of
    the arguments in order, the types and defaults those of the extraction,
    and the return type, return type modifier and aggregate flag those of
    the statement. *)
Theorem compiled_signature astnode context schema cmd :
  CreateFunction__cmd_tree_from_ast astnode context schema = Ok cmd →
  NamedObjectCommand__classname_from_ast (cf_name astnode) context schema
  = Ok (classname_of cmd) ∧
  NoDup (property <$> ops cmd) ∧
  take 8 (property <$> ops cmd)
  = ["paramnames"; "paramtypes"; "paramtypemods"; "paramkinds";
     "paramdefaults"; "return_type"; "aggregate"; "return_typemod"] ∧
  property_values cmd "paramnames"
  = [VStrList (arg_name <$> cf_args astnode)] ∧
  property_values cmd "paramtypemods"
  = [VTypeModList (arg_typemod <$> cf_args astnode)] ∧
  property_values cmd "paramkinds"
  = [VKindList (arg_kind <$> cf_args astnode)] ∧
  property_values cmd "aggregate" = [VBool (cf_aggregate astnode)] ∧
  property_values cmd "return_typemod"
  = [VTypeMod (cf_returning_typemod astnode)] ∧
  (∃ rt, ast_to_typeref (cf_returning astnode) (modaliases context) schema
         = Ok rt ∧
         property_values cmd "return_type" = [VType rt]) ∧
  (∃ pi, parameters_from_ast (cf_args astnode) (modaliases context) schema true
         = Ok pi ∧
         property_values cmd "paramtypes" = [VTypeList (paramtypes pi)] ∧
         property_values cmd "paramdefaults" = [VExprList (paramdefaults pi)]).
Proof.
  intros Hcmd.
  assert (∃ pi0, parameters_from_ast (cf_args astnode) (modaliases context)
                   schema true = Ok pi0 ∧
                 paramnames pi0 = arg_name <$> cf_args astnode ∧
                 paramtypemods pi0 = arg_typemod <$> cf_args astnode ∧
                 paramkinds pi0 = arg_kind <$> cf_args astnode)
    as (pi0 & Hpi0 & Hnames & Hmods & Hkinds).
  { unfold CreateFunction__cmd_tree_from_ast in Hcmd.
    destruct (CreateNamedObject__cmd_tree_from_ast _ _ _); [|done].
    simpl in Hcmd.
    destruct (parameters_from_ast _ _ _ _) as [pi0|] eqn:Hpi0; [|done].
    exists pi0. split; [done|].
    by apply parameters_from_ast_Ok in Hpi0 as (ds & tys & _ & _ & ->). }
  rewrite <- Hnames, <- Hmods, <- Hkinds.
  compiled Hcmd nm pi; injection Hpi0 as <-.
  all: unfold property_values; simpl.
  all: split; [done|]; split; [compute_done|]; split; [done|].
  all: repeat (split; [done|]).
  all: split; [by eexists|by eexists].
Qed.

(** X9. The command records an initial value exactly when the statement
    has one, as the rendered source of its expression. *)
Theorem compiled_initial_value astnode context schema cmd :
  CreateFunction__cmd_tree_from_ast astnode context schema = Ok cmd →
  match cf_initial_value astnode with
  | Some e =>
      ∃ iv, generate_source e = Ok iv ∧
            property_values cmd "initial_value" = [VStr iv]
  | None => property_values cmd "initial_value" = []
  end.
Proof.
  intros Hcmd. compiled Hcmd nm pi.
  all: unfold property_values; simpl; try done.
  all: by eexists.
Qed.

(** ** Further properties of the target of DROP FUNCTION *)

(** X10. The target name of a DROP statement is found whenever the base
    name is found and the collaborators succeed on every argument, be the
    arguments NAMED_ONLY or not; it has the module of the base name and is
    specialized by the tokens of the resolved types of the arguments. *)
Theorem delete_target_name dnode context schema nm :
  NamedObjectCommand__classname_from_ast (df_name dnode) context schema
  = Ok nm →
  Forall (collaborators_succeed (modaliases context) schema) (df_args dnode) →
  ∃ tys,
    Forall2 (fun a ty => ast_to_typeref (arg_type a) (modaliases context)
                           schema = Ok ty) (df_args dnode) tys ∧
    DeleteFunction__classname_from_ast dnode context schema
    = Ok (mkName (module nm) (get_specialized_name nm (qualifier_tokens tys))).
Proof.
  intros Hnm Hcol. unfold DeleteFunction__classname_from_ast.
  rewrite Hnm. simpl.
  destruct (parameters_loop_total (modaliases context) schema true
              (df_args dnode) Hcol 0
              (mkParametersInfo [] [] [] [] [] None)) as [Hok _].
  destruct Hok as [pi Hpi]; [by left|].
  fold (parameters_from_ast (df_args dnode) (modaliases context) schema true)
    in Hpi.
  rewrite Hpi. simpl.
  apply parameters_from_ast_Ok in Hpi as (ds & tys & _ & Htys & ->). simpl.
  exists tys. split; [done|].
  unfold _get_function_fullname. by rewrite function_quals_Some.
Qed.

(** ** Further properties of the qualified name *)

Lemma string_app_cancel prefix :
  ∀ s1 s2, prefix +:+ s1 = prefix +:+ s2 → s1 = s2.
Proof.
  induction prefix as [|c prefix IH]; intros s1 s2; simpl; [done|].
  intros [= H]. by apply IH.
Qed.

Lemma Name_str_same_module m n1 n2 :
  Name_str (mkName m n1) = Name_str (mkName m n2) → n1 = n2.
Proof.
  unfold Name_str. simpl. intros H.
  apply string_app_cancel in H. by apply (string_app_cancel "::") in H.
Qed.

Lemma qualifier_tokens_app pts1 pts2 :
  qualifier_tokens (pts1 ++ pts2)
  = qualifier_tokens pts1 ++ qualifier_tokens pts2.
Proof. unfold qualifier_tokens. by rewrite fmap_app, concat_app. Qed.

(** X11. A forward reference and the type object of the same name give the
    same token, at the top and as the element of a container: the
    qualified name does not change when references are replaced by the
    objects they name. *)
Theorem fullname_of_referenced nm pts :
  _get_function_fullname nm (Some (referenced <$> pts))
  = _get_function_fullname nm (Some pts).
Proof.
  unfold _get_function_fullname. rewrite !function_quals_Some.
  do 2 f_equal. unfold qualifier_tokens.
  induction pts as [|pt pts IH]; [done|]. simpl. f_equal; [|exact IH].
  destruct pt as [cn|n sname et|n]; try done. by destruct et.
Qed.

(** X12. The tokens of a list of parameter types are the tokens of its
    parts one after the other, one per type and one more per container. *)
Theorem tokens_of_concatenation pts1 pts2 :
  function_quals (Some (pts1 ++ pts2))
  = function_quals (Some pts1) ++ function_quals (Some pts2) ∧
  length (function_quals (Some pts1))
  = (length pts1 + length (List.filter is_Collection pts1))%nat.
Proof.
  rewrite !function_quals_Some. split; [apply qualifier_tokens_app|].
  unfold qualifier_tokens.
  induction pts1 as [|pt pts IH]; [done|].
  rewrite fmap_cons, concat_cons, length_app, IH. destruct pt; simpl; lia.
Qed.

(** ** Further properties of adding the function to the schema *)

Lemma properties_of_other_key key (l : list AlterObjectProperty) :
  ∀ props : gmap string Value,
  key ∉ property <$> l →
  fold_left (fun props op => <[property op := new_value op]> props) l props
  !! key = props !! key.
Proof.
  induction l as [|op l IH]; intros props Hnot; simpl; [done|].
  rewrite fmap_cons, not_elem_of_cons in Hnot. destruct Hnot as [Hne Hnot].
  rewrite IH by done. by apply lookup_insert_ne.
Qed.

(** X13. When the name is free and no polymorphic parameter has a default,
    adding a compiled CREATE command succeeds: the schema gains one object,
    under the string of the qualified name; the object carries that name
    and otherwise the properties of the command; every other entry of the
    schema stays as it was. *)
Theorem add_to_schema_stores astnode context schema0 cmd nm pi schema :
  CreateFunction__cmd_tree_from_ast astnode context schema0 = Ok cmd →
  NamedObjectCommand__classname_from_ast (cf_name astnode) context schema0
  = Ok nm →
  parameters_from_ast (cf_args astnode) (modaliases context) schema0 true
  = Ok pi →
  ¬ polymorphic_with_default (paramtypes pi) (paramdefaults pi) →
  schema !! Name_str (_get_function_fullname nm (Some (paramtypes pi))) = None →
  let fullname := _get_function_fullname nm (Some (paramtypes pi)) in
  let schema' := (CreateFunction__add_to_schema cmd schema).1 in
  (CreateFunction__add_to_schema cmd schema).2 = Ok () ∧
  (∃ obj,
     schema' !! Name_str fullname = Some obj ∧
     obj !! "name" = Some (VName fullname) ∧
     obj !! "paramtypes" = Some (VTypeList (paramtypes pi)) ∧
     ∀ k, k ≠ "name" →
          obj !! k = NamedObjectCommand_get_struct_properties cmd schema !! k) ∧
  (∀ key, key ≠ Name_str fullname → schema' !! key = schema !! key).
Proof.
  intros Hcmd Hnm Hpi Hno Hfree fullname schema'. subst schema'.
  rewrite (add_to_schema_compiled _ _ _ _ _ _ schema Hcmd Hnm Hpi).
  fold fullname in Hfree |- *. rewrite Hfree.
  destruct (check_any_defaults_spec (paramnames pi) (paramtypes pi)
              (paramdefaults pi)) as [[-> _]|[_ Hyes]];
    [by eapply extracted_lengths| |done].
  simpl. split; [done|]. split.
  - eexists. split; [apply lookup_insert_eq|].
    split; [apply lookup_insert_eq|].
    apply compiled_properties in Hcmd as (nm' & pi' & Hnm' & Hpi' & Hprops).
    destruct (Hprops schema) as (_ & _ & Hpts & _).
    rewrite Hpi in Hpi'. injection Hpi' as <-.
    split; [by rewrite lookup_insert_ne|].
    intros k Hk. by rewrite lookup_insert_ne.
  - intros key Hkey. by rewrite lookup_insert_ne.
Qed.

(** X14. Adding the same compiled CREATE command a second time raises
    [DuplicateSignatureError] and leaves the schema as the first addition
    made it. *)
Theorem add_to_schema_twice astnode context schema0 cmd nm pi schema :
  CreateFunction__cmd_tree_from_ast astnode context schema0 = Ok cmd →
  NamedObjectCommand__classname_from_ast (cf_name astnode) context schema0
  = Ok nm →
  parameters_from_ast (cf_args astnode) (modaliases context) schema0 true
  = Ok pi →
  (CreateFunction__add_to_schema cmd schema).2 = Ok () →
  let schema' := (CreateFunction__add_to_schema cmd schema).1 in
  CreateFunction__add_to_schema cmd schema'
  = (schema', Raise DuplicateSignatureError).
Proof.
  intros Hcmd Hnm Hpi Hok schema'. subst schema'.
  rewrite (add_to_schema_compiled _ _ _ _ _ _ schema Hcmd Hnm Hpi) in Hok |- *.
  rewrite (add_to_schema_compiled _ _ _ _ _ _ _ Hcmd Hnm Hpi).
  destruct (check_any_defaults _ _ _) as [[]|e]; [|done].
  destruct (schema !! _) as [func|] eqn:Hfunc; [done|]. simpl.
  by rewrite lookup_insert_eq.
Qed.

(** X15. Overloads live side by side: with a specialization operation
    injective in its tokens, two CREATE commands on the same base name
    whose parameter types give different tokens are stored under different
    keys, and after both have been added the schema holds both. *)
Theorem overloads_coexist
    astnode1 astnode2 context schema0 cmd1 cmd2 nm pi1 pi2 schema :
  (∀ quals1 quals2,
     get_specialized_name nm quals1 = get_specialized_name nm quals2 →
     quals1 = quals2) →
  CreateFunction__cmd_tree_from_ast astnode1 context schema0 = Ok cmd1 →
  CreateFunction__cmd_tree_from_ast astnode2 context schema0 = Ok cmd2 →
  NamedObjectCommand__classname_from_ast (cf_name astnode1) context schema0
  = Ok nm →
  NamedObjectCommand__classname_from_ast (cf_name astnode2) context schema0
  = Ok nm →
  parameters_from_ast (cf_args astnode1) (modaliases context) schema0 true
  = Ok pi1 →
  parameters_from_ast (cf_args astnode2) (modaliases context) schema0 true
  = Ok pi2 →
  qualifier_tokens (paramtypes pi1) ≠ qualifier_tokens (paramtypes pi2) →
  (CreateFunction__add_to_schema cmd1 schema).2 = Ok () →
  let key1 := Name_str (_get_function_fullname nm (Some (paramtypes pi1))) in
  let key2 := Name_str (_get_function_fullname nm (Some (paramtypes pi2))) in
  let schema1 := (CreateFunction__add_to_schema cmd1 schema).1 in
  let schema2 := (CreateFunction__add_to_schema cmd2 schema1).1 in
  key1 ≠ key2 ∧
  (schema !! key2 = None →
   ¬ polymorphic_with_default (paramtypes pi2) (paramdefaults pi2) →
   (CreateFunction__add_to_schema cmd2 schema1).2 = Ok () ∧
   is_Some (schema2 !! key1) ∧ is_Some (schema2 !! key2)).
Proof.
  intros Hinj Hcmd1 Hcmd2 Hnm1 Hnm2 Hpi1 Hpi2 Htok Hok1 key1 key2 schema1 schema2.
  assert (key1 ≠ key2) as Hkeys.
  { subst key1 key2. unfold _get_function_fullname.
    rewrite !function_quals_Some. intros Heq.
    apply Name_str_same_module in Heq. by apply Htok, Hinj. }
  split; [done|]. intros Hfree2 Hno2.
  subst schema2 schema1.
  rewrite (add_to_schema_compiled _ _ _ _ _ _ _ Hcmd2 Hnm2 Hpi2).
  rewrite (add_to_schema_compiled _ _ _ _ _ _ schema Hcmd1 Hnm1 Hpi1) in Hok1 |- *.
  fold key1 key2 in Hok1 |- *.
  destruct (check_any_defaults (paramnames pi1) _ _) as [[]|e1]; [|done].
  destruct (schema !! key1) as [func|] eqn:Hfunc; [done|]. simpl.
  destruct (check_any_defaults_spec (paramnames pi2) (paramtypes pi2)
              (paramdefaults pi2)) as [[-> _]|[_ Hyes]];
    [by eapply extracted_lengths| |done].
  rewrite lookup_insert_ne, Hfree2 by done. simpl.
  split; [done|]. split.
  - rewrite lookup_insert_ne, lookup_insert_eq by done. by eexists.
  - rewrite lookup_insert_eq. by eexists.
Qed.

(** X16. A CREATE command without the properties of the parameters gets,
    from [get_struct_properties], the name specialized with no token, but
    cannot be added to the schema: [_add_to_schema] raises the key error of
    the missing [paramnames] and leaves the schema as it was. *)
Theorem add_without_parameter_properties cmd schema :
  "name" ∉ property <$> ops cmd →
  "paramtypes" ∉ property <$> ops cmd →
  "paramnames" ∉ property <$> ops cmd →
  (props ← CreateFunction_get_struct_properties cmd schema;
   getitem props "name")
  = Ok (VName (_get_function_fullname (classname_of cmd) None)) ∧
  CreateFunction__add_to_schema cmd schema
  = (schema, Raise (KeyError "paramnames")).
Proof.
  intros Hname Hpts Hpns.
  assert (NamedObjectCommand_get_struct_properties cmd schema !! "name"
          = Some (VName (classname_of cmd))) as Hn.
  { unfold NamedObjectCommand_get_struct_properties.
    rewrite properties_of_other_key by done.
    apply lookup_singleton_eq. }
  assert (NamedObjectCommand_get_struct_properties cmd schema !! "paramtypes"
          = None) as Ht.
  { unfold NamedObjectCommand_get_struct_properties.
    by rewrite properties_of_other_key by done. }
  assert (NamedObjectCommand_get_struct_properties cmd schema !! "paramnames"
          = None) as Hp.
  { unfold NamedObjectCommand_get_struct_properties.
    by rewrite properties_of_other_key by done. }
  split.
  - unfold CreateFunction_get_struct_properties, getitem, get_paramtypes.
    rewrite Hn, Ht. simpl. by rewrite lookup_insert_eq.
  - unfold CreateFunction__add_to_schema, getitem, get_paramtypes.
    rewrite Hn, Ht, Hp. reflexivity.
Qed.

(** Every way [CreateFunction__add_to_schema] can end, for any command:
    with an error and the schema it was given, or with the properties of
    [CreateFunction_get_struct_properties] stored under their name, which
    was free. *)
Lemma add_to_schema_cases cmd schema :
  (∃ e, CreateFunction__add_to_schema cmd schema = (schema, Raise e)) ∨
  (∃ props fullname,
     CreateFunction_get_struct_properties cmd schema = Ok props ∧
     props !! "name" = Some (VName fullname) ∧
     schema !! Name_str fullname = None ∧
     CreateFunction__add_to_schema cmd schema
     = (<[Name_str fullname := props]> schema, Ok ())).
Proof.
  unfold CreateFunction__add_to_schema, CreateNamedObject__add_to_schema,
    CreateFunction_get_struct_properties, getitem, get_paramtypes.
  destruct (NamedObjectCommand_get_struct_properties cmd schema !! "name")
    as [[]|] eqn:Hn; simpl; try (left; by eexists).
  destruct (NamedObjectCommand_get_struct_properties cmd schema !! "paramtypes")
    as [[]|] eqn:Hpts; simpl; try (left; by eexists).
  all: destruct (NamedObjectCommand_get_struct_properties cmd schema
                 !! "paramnames") as [[]|]; simpl; try (left; by eexists).
  all: destruct (NamedObjectCommand_get_struct_properties cmd schema
                 !! "paramdefaults") as [[]|]; simpl; try (left; by eexists).
  unfold mbind, SchemaM_bind, lift, schema_get, raise, lift; simpl.
  destruct (check_any_defaults _ _ _) as [[]|e]; [|left; by eexists].
  destruct (schema !! _) as [func|] eqn:Hfree; [left; by eexists|].
  rewrite Hn, Hpts. simpl. rewrite lookup_insert_eq. simpl. right.
  eexists _, _. split; [done|]. split; [apply lookup_insert_eq|]. done.
Qed.

(** X17. [_add_to_schema] leaves no half-done change, whatever the command:
    when it raises, the schema is the one it was given. *)
Theorem add_to_schema_raise_keeps_schema cmd schema e :
  (CreateFunction__add_to_schema cmd schema).2 = Raise e →
  (CreateFunction__add_to_schema cmd schema).1 = schema.
Proof.
  destruct (add_to_schema_cases cmd schema)
    as [[e' ->]|(props & fullname & _ & _ & _ & ->)]; [done|].
  intros H. discriminate H.
Qed.

(** X18. [_add_to_schema] never replaces an object, whatever the command:
    when it succeeds, the schema is the one it was given plus the
    properties [get_struct_properties] gives, stored under the string of
    their name, and that key was free before. *)
Theorem add_to_schema_adds_fresh cmd schema :
  (CreateFunction__add_to_schema cmd schema).2 = Ok () →
  ∃ props fullname,
    CreateFunction_get_struct_properties cmd schema = Ok props ∧
    props !! "name" = Some (VName fullname) ∧
    schema !! Name_str fullname = None ∧
    (CreateFunction__add_to_schema cmd schema).1
    = <[Name_str fullname := props]> schema.
Proof.
  destruct (add_to_schema_cases cmd schema)
    as [[e' ->]|(props & fullname & Hp & Hn & Hfree & ->)].
  - intros H. discriminate H.
  - intros _. by exists props, fullname.
Qed.

(** X19. A function that has just been created is found under the target
    name of the DROP statement with the same base name and parameters: the
    object stored there carries that very name. *)
Theorem created_function_found_by_drop_target
    cnode dnode context schema0 cmd schema :
  cf_name cnode = df_name dnode →
  cf_args cnode = df_args dnode →
  CreateFunction__cmd_tree_from_ast cnode context schema0 = Ok cmd →
  (CreateFunction__add_to_schema cmd schema).2 = Ok () →
  ∃ target obj,
    DeleteFunction__classname_from_ast dnode context schema0 = Ok target ∧
    (CreateFunction__add_to_schema cmd schema).1 !! Name_str target = Some obj ∧
    obj !! "name" = Some (VName target).
Proof.
  intros Hname Hargs Hcmd Hok.
  destruct (compiled_properties _ _ _ _ Hcmd) as (nm & pi & Hnm & Hpi & _).
  rewrite (add_to_schema_compiled _ _ _ _ _ _ schema Hcmd Hnm Hpi) in Hok |- *.
  exists (_get_function_fullname nm (Some (paramtypes pi))).
  unfold DeleteFunction__classname_from_ast.
  rewrite <- Hname, <- Hargs, Hnm, Hpi. simpl.
  destruct (check_any_defaults _ _ _) as [[]|e]; [|done].
  destruct (schema !! _) as [func|]; [done|]. simpl.
  eexists. split; [done|]. split; apply lookup_insert_eq.
Qed.

End Functions.

Arguments mkFuncParam {Expr TypeName}.
Arguments arg_kind {Expr TypeName}.
Arguments mkCreateFunctionNode {Expr TypeName ObjectRefNode}.
Arguments mkDropFunctionNode {Expr TypeName ObjectRefNode}.
Arguments cf_name {Expr TypeName ObjectRefNode}.
Arguments cf_args {Expr TypeName ObjectRefNode}.
Arguments cf_code {Expr TypeName ObjectRefNode}.
Arguments df_name {Expr TypeName ObjectRefNode}.
Arguments df_args {Expr TypeName ObjectRefNode}.
Arguments mkCommandContext {ModAliases}.
Arguments modaliases {ModAliases}.
Arguments collaborators_succeed {Expr TypeName ModAliases}.
Arguments parameters_from_ast {Expr TypeName ModAliases}.
Arguments CreateFunction__cmd_tree_from_ast
  {Expr TypeName ObjectRefNode ModAliases}.
Arguments DeleteFunction__classname_from_ast
  {Expr TypeName ObjectRefNode ModAliases}.

(** * A concrete setting

    Collaborators that never raise, over syntax trees whose expressions,
    type names and object references are their own source text, and a
    specialization operation that is injective in its tokens. They show
    that the premises of the statements above can be met, and give the
    inputs on which some claims fail. *)

Definition render (e : string) : result string := Ok e.

Definition resolve (t : string) (_ : unit) (_ : Schema) : result SchemaType :=
  Ok (TypeObj (mkName "std" t)).

Definition named (n : Name) (_ : CommandContext unit) (_ : Schema)
    : result Name := Ok n.

(** A token, character by character, each marked with a dot, and then an
    at sign; [rest] follows. *)
Fixpoint encode_token (t rest : string) : string :=
  match t with
  | EmptyString => String (Ascii.ascii_of_nat 64) rest
  | String c t' => String (Ascii.ascii_of_nat 46) (String c (encode_token t' rest))
  end.

Fixpoint encode_tokens (quals : list string) : string :=
  match quals with
  | [] => EmptyString
  | q :: quals' => encode_token q (encode_tokens quals')
  end.

Definition specialized (nm : Name) (quals : list string) : string :=
  name nm +:+ "@@" +:+ encode_tokens quals.

Definition context0 : CommandContext unit := mkCommandContext ().

Definition f_name : Name := mkName "test" "f".

(** [f(x: int64, VARIADIC rest: str)] *)
Definition args_int64_rest : list (FuncParam string string) :=
  [ mkFuncParam "x" "int64" SINGLETON POSITIONAL None;
    mkFuncParam "rest" "str" SINGLETON VARIADIC None ].

(** [f(VARIADIC a: int64, VARIADIC b: int64)] *)
Definition args_two_variadic : list (FuncParam string string) :=
  [ mkFuncParam "a" "int64" SINGLETON VARIADIC None;
    mkFuncParam "b" "int64" SINGLETON VARIADIC None ].

(** [f(x: int64, NAMED ONLY y: str)] *)
Definition args_named_only : list (FuncParam string string) :=
  [ mkFuncParam "x" "int64" SINGLETON POSITIONAL None;
    mkFuncParam "y" "str" SINGLETON NAMED_ONLY None ].

(** [f(x: any = 1)] *)
Definition args_any_default : list (FuncParam string string) :=
  [ mkFuncParam "x" "any" SINGLETON POSITIONAL (Some "1") ].

(** [CREATE FUNCTION test::f(x: int64, VARIADIC rest: str) -> int64
     FROM EdgeQL $$ SELECT 1 $$] *)
Definition create_inline : CreateFunctionNode string string Name :=
  mkCreateFunctionNode f_name args_int64_rest "int64" SINGLETON false None
    (Some (mkFunctionCode EdgeQL None (Some "SELECT 1"))).

(** [CREATE FUNCTION test::f(x: int64, VARIADIC rest: str) -> int64
     FROM SQL FUNCTION 'lower'] *)
Definition create_delegate : CreateFunctionNode string string Name :=
  mkCreateFunctionNode f_name args_int64_rest "int64" SINGLETON false None
    (Some (mkFunctionCode SQL (Some "lower") None)).

(** [CREATE FUNCTION test::f(x: any = 1) -> int64 FROM EdgeQL $$ SELECT 1 $$] *)
Definition create_any_default : CreateFunctionNode string string Name :=
  mkCreateFunctionNode f_name args_any_default "int64" SINGLETON false None
    (Some (mkFunctionCode EdgeQL None (Some "SELECT 1"))).

(** [DROP FUNCTION test::f(x: int64, VARIADIC rest: str)] *)
Definition drop_f : DropFunctionNode string string Name :=
  mkDropFunctionNode f_name args_int64_rest.

(** The qualified names of [test::f(int64, str)] and of [test::f(any)]. *)
Definition f_int64_str : Name :=
  _get_function_fullname specialized f_name
    (Some [TypeObj (mkName "std" "int64"); TypeObj (mkName "std" "str")]).

Definition f_any : Name :=
  _get_function_fullname specialized f_name (Some [TypeObj (mkName "std" "any")]).

(** Schemas that already hold an object under these names. *)
Definition schema_with_f_int64_str : Schema := {[ Name_str f_int64_str := ∅ ]}.

Definition schema_with_f_any : Schema := {[ Name_str f_any := ∅ ]}.

(** The command compiled from a statement of this setting. *)
Definition compiled (astnode : CreateFunctionNode string string Name) : Command :=
  match CreateFunction__cmd_tree_from_ast render resolve named astnode
          context0 ∅ with
  | Ok cmd => cmd
  | Raise _ => mkCommand (cf_name astnode) []
  end.

Lemma encode_token_inj t1 :
  ∀ t2 rest1 rest2,
  encode_token t1 rest1 = encode_token t2 rest2 → t1 = t2 ∧ rest1 = rest2.
Proof.
  induction t1 as [|c t1 IH]; intros [|c' t2] rest1 rest2; simpl.
  - by intros [= ->].
  - intros H. discriminate H.
  - intros H. discriminate H.
  - intros [= -> H]. by apply IH in H as [-> ->].
Qed.

Lemma encode_tokens_inj quals1 :
  ∀ quals2, encode_tokens quals1 = encode_tokens quals2 → quals1 = quals2.
Proof.
  induction quals1 as [|q1 quals1 IH]; intros [|q2 quals2]; simpl; try done.
  - by destruct q2.
  - by destruct q1.
  - intros H. apply encode_token_inj in H as [-> H]. by rewrite (IH _ H).
Qed.

Lemma append_inj_r prefix :
  ∀ s1 s2, prefix +:+ s1 = prefix +:+ s2 → s1 = s2.
Proof.
  induction prefix as [|c prefix IH]; intros s1 s2; simpl; [done|].
  intros [= H]. by apply IH.
Qed.

Lemma specialized_inj nm quals1 quals2 :
  specialized nm quals1 = specialized nm quals2 → quals1 = quals2.
Proof.
  unfold specialized. intros H.
  apply append_inj_r in H. apply (append_inj_r "@@") in H.
  by apply encode_tokens_inj.
Qed.

Lemma collaborators_succeed_concrete (arg : FuncParam string string) :
  collaborators_succeed render resolve () ∅ arg.
Proof.
  split; [by eexists|].
  unfold source_of_default. destruct (arg_default _ _ arg); by eexists.
Qed.

(** ** The statements at concrete inputs *)

(** C6 as amended, on [f(x: int64, VARIADIC rest: str)]. *)
Lemma extract_parameters_sequences_witness :
  ∃ pi,
    parameters_from_ast render resolve args_int64_rest () ∅ true = Ok pi ∧
    length (paramnames pi) = 2 ∧
    length (paramtypes pi) = 2 ∧
    length (paramtypemods pi) = 2 ∧
    length (paramkinds pi) = 2 ∧
    paramkinds pi = [POSITIONAL; VARIADIC] ∧
    count_VARIADIC (paramkinds pi) = 1.
Proof.
  destruct (extract_parameters_sequences _ _ _ render resolve
              args_int64_rest () ∅ true)
    as (pi & Hpi & Hn & Ht & Hm & Hk & _ & _ & _ & Hkinds & Hcount).
  - repeat constructor; apply collaborators_succeed_concrete.
  - by left.
  - by exists pi.
Defined.

(** C6 as stated fails on [f(VARIADIC a: int64, VARIADIC b: int64)]: the
    collaborators succeed, the extraction returns, and the returned kinds
    hold two VARIADIC entries. *)
Lemma two_VARIADIC_kinds_returned :
  Forall (collaborators_succeed render resolve () ∅) args_two_variadic ∧
  ∃ pi,
    parameters_from_ast render resolve args_two_variadic () ∅ true = Ok pi ∧
    paramkinds pi = [VARIADIC; VARIADIC] ∧
    count_VARIADIC (paramkinds pi) = 2.
Proof.
  split; [repeat constructor; apply collaborators_succeed_concrete|].
  by eexists.
Qed.

(** C7 as amended, on [f(VARIADIC a: int64, VARIADIC b: int64)]: the index
    is 1, that of the last VARIADIC argument. *)
Lemma variadic_is_last_VARIADIC_witness :
  (∃ a, args_two_variadic !! 1 = Some a ∧ arg_kind a = VARIADIC) ∧
  (∀ j a, 1 < j → args_two_variadic !! j = Some a → arg_kind a ≠ VARIADIC).
Proof.
  exact (variadic_is_last_VARIADIC _ _ _ render resolve args_two_variadic
           () ∅ true _ eq_refl).
Defined.

(** C7 as stated fails on [f(VARIADIC a: int64, VARIADIC b: int64)]: the
    first VARIADIC argument has index 0, [variadic] is 1. *)
Lemma variadic_is_not_first_VARIADIC :
  ∃ pi,
    parameters_from_ast render resolve args_two_variadic () ∅ true = Ok pi ∧
    first_VARIADIC (paramkinds pi) = Some 0 ∧
    variadic pi = Some 1.
Proof. by eexists. Qed.

(** C8 on [f(x: int64, NAMED ONLY y: str)], named-only parameters not
    allowed. *)
Lemma named_only_rejected_iff_witness :
  parameters_from_ast render resolve args_named_only () ∅ false
  = Raise InvalidParameterKindError.
Proof.
  apply (named_only_rejected_iff _ _ _ render resolve args_named_only () ∅ false).
  - repeat constructor; apply collaborators_succeed_concrete.
  - split; [reflexivity|].
    exists (mkFuncParam "y" "str" SINGLETON NAMED_ONLY None).
    split; [|reflexivity]. apply list_elem_of_lookup. by exists 1.
Defined.

(** C3 on [test::f(int64)] and [test::f(str)]. *)
Lemma fullname_injective_on_tokens_witness :
  _get_function_fullname specialized f_name
    (Some [TypeObj (mkName "std" "int64")])
  ≠ _get_function_fullname specialized f_name
      (Some [TypeObj (mkName "std" "str")]).
Proof.
  apply (fullname_injective_on_tokens specialized f_name).
  - apply specialized_inj.
  - vm_compute. intros H. discriminate H.
Defined.

(** C5 on [CREATE FUNCTION test::f(x: int64, VARIADIC rest: str)] and the
    DROP statement with the same parameters. *)
Lemma delete_name_is_create_name_witness :
  ∃ props fullname,
    CreateFunction_get_struct_properties specialized (compiled create_inline) ∅
    = Ok props ∧
    props !! "name" = Some (VName fullname) ∧
    DeleteFunction__classname_from_ast render resolve specialized named
      drop_f context0 ∅ = Ok fullname.
Proof.
  exact (delete_name_is_create_name _ _ _ _ render resolve specialized named
           create_inline drop_f context0 ∅ (compiled create_inline)
           eq_refl eq_refl eq_refl).
Defined.

(** C9 as amended, on a body that names a delegate. *)
Lemma body_properties_witness :
  (property_values (compiled create_delegate) "language" = [VLanguage SQL] ∧
   property_values (compiled create_delegate) "from_function" = [VStr "lower"] ∧
   property_values (compiled create_delegate) "code" = []) ∧
  (property_values (compiled create_delegate) "from_function" = [] ∨
   property_values (compiled create_delegate) "code" = []).
Proof.
  exact (body_properties _ _ _ _ render resolve named create_delegate
           context0 ∅ (compiled create_delegate) eq_refl).
Defined.

(** C9 as stated fails on a body that names a delegate: the language is
    recorded all the same. *)
Lemma language_recorded_with_delegate :
  CreateFunction__cmd_tree_from_ast render resolve named create_delegate
    context0 ∅ = Ok (compiled create_delegate) ∧
  (from_name <$> cf_code create_delegate) = Some (Some "lower") ∧
  property_values (compiled create_delegate) "from_function" = [VStr "lower"] ∧
  property_values (compiled create_delegate) "language" = [VLanguage SQL].
Proof. done. Qed.

(** C1 as amended, on [test::f(x: int64, VARIADIC rest: str)] and a schema
    that holds [test::f(int64, str)] already. *)
Lemma duplicate_signature_rejected_witness :
  CreateFunction__add_to_schema specialized (compiled create_inline)
    schema_with_f_int64_str
  = (schema_with_f_int64_str, Raise DuplicateSignatureError).
Proof.
  refine (proj2 (proj2 (duplicate_signature_rejected _ _ _ _ render resolve
            specialized named create_inline context0 ∅
            (compiled create_inline) f_name _ schema_with_f_int64_str
            eq_refl eq_refl eq_refl _)) _).
  - exists ∅. apply lookup_singleton_eq.
  - intros (i & pt & src & _ & _ & Hpd).
    destruct i as [|[|i]]; discriminate Hpd.
Defined.

(** C1 as stated fails on [test::f(x: any = 1)] and a schema that holds
    [test::f(any)] already: the default of the polymorphic parameter is
    found first, and that is the error raised. *)
Lemma duplicate_signature_after_polymorphic_default :
  CreateFunction__cmd_tree_from_ast render resolve named create_any_default
    context0 ∅ = Ok (compiled create_any_default) ∧
  (props ← CreateFunction_get_struct_properties specialized
             (compiled create_any_default) schema_with_f_any;
   getitem props "name") = Ok (VName f_any) ∧
  schema_with_f_any !! Name_str f_any = Some ∅ ∧
  CreateFunction__add_to_schema specialized (compiled create_any_default)
    schema_with_f_any
  = (schema_with_f_any, Raise PolymorphicDefaultError).
Proof.
  split; [done|]. split; [by vm_compute|]. split; [apply lookup_singleton_eq|].
  by vm_compute.
Qed.

(** C2 on [test::f(x: any = 1)] and the empty schema. *)
Lemma polymorphic_default_rejected_witness :
  CreateFunction__add_to_schema specialized (compiled create_any_default) ∅
  = (∅, Raise PolymorphicDefaultError).
Proof.
  refine (proj1 (polymorphic_default_rejected _ _ _ _ render resolve
            specialized named create_any_default context0 ∅
            (compiled create_any_default) f_name _ ∅
            eq_refl eq_refl eq_refl) _).
  exists 0, (TypeObj (mkName "std" "any")), "1". by repeat split.
Defined.

(** ** Further statements at concrete inputs *)

(** A resolver that does not know the type [missing]. *)
Definition resolve_known (t : string) (_ : unit) (_ : Schema)
    : result SchemaType :=
  if String.eqb t "missing" then Raise (External "unknown type")
  else Ok (TypeObj (mkName "std" t)).

(** What the extraction returns in this setting. *)
Definition extracted (args : list (FuncParam string string)) : ParametersInfo :=
  match parameters_from_ast render resolve args () ∅ true with
  | Ok pi => pi
  | Raise _ => mkParametersInfo [] [] [] [] [] None
  end.

(** [f(x: int64, NAMED ONLY y: missing, z: int64)] *)
Definition arg_x : FuncParam string string :=
  mkFuncParam "x" "int64" SINGLETON POSITIONAL None.

Definition arg_y_missing : FuncParam string string :=
  mkFuncParam "y" "missing" SINGLETON NAMED_ONLY None.

(** [CREATE AGGREGATE test::f(x: int64) -> int64 { INITIAL VALUE 0 }] *)
Definition create_aggregate : CreateFunctionNode string string Name :=
  mkCreateFunctionNode f_name [arg_x] "int64" SINGLETON true (Some "0") None.

(** [CREATE FUNCTION test::f(s: str) -> int64] *)
Definition create_str : CreateFunctionNode string string Name :=
  mkCreateFunctionNode f_name
    [mkFuncParam "s" "str" SINGLETON POSITIONAL None]
    "int64" SINGLETON false None None.

Definition f_str : Name :=
  _get_function_fullname specialized f_name (Some [TypeObj (mkName "std" "str")]).

(** A CREATE command that only sets the aggregate flag. *)
Definition bare_command : Command :=
  mkCommand f_name [mkAlterObjectProperty "aggregate" (VBool false)].

(** X1 on [f(x: any = 1)]. *)
Lemma extracted_defaults_witness :
  ∃ src, render "1" = Ok src ∧
         paramdefaults (extracted args_any_default) !! 0 = Some (Some src).
Proof.
  exact (proj2 (extracted_defaults _ _ _ render resolve args_any_default
                  () ∅ true (extracted args_any_default) eq_refl)
           0 (mkFuncParam "x" "any" SINGLETON POSITIONAL (Some "1")) eq_refl).
Defined.

(** X2 on [f(x: int64, NAMED ONLY y: missing, z: int64)] with named-only
    arguments forbidden: the error is the resolver's. *)
Lemma extraction_raises_first_failure_witness :
  parameters_from_ast render resolve_known [arg_x; arg_y_missing; arg_x] () ∅
    false
  = Raise (External "unknown type").
Proof.
  refine (proj2 (extraction_raises_first_failure _ _ _ render resolve_known
                   [arg_x] arg_y_missing [arg_x] () ∅ false
                   (External "unknown type") _ _) _ _).
  - repeat constructor; by eexists.
  - right. repeat constructor. intros H. discriminate H.
  - by eexists.
  - reflexivity.
Defined.

(** X5 on [f(VARIADIC a: int64, VARIADIC b: int64)]. *)
Lemma variadic_points_at_VARIADIC_witness :
  paramkinds (extracted args_two_variadic) !! 1 = Some VARIADIC.
Proof.
  exact (proj2 (variadic_points_at_VARIADIC _ _ _ render resolve
                  args_two_variadic () ∅ true (extracted args_two_variadic)
                  eq_refl) 1 eq_refl).
Defined.

(** X6 on [f(x: int64, VARIADIC rest: str)]. *)
Lemma variadic_is_first_when_unique_witness :
  variadic (extracted args_int64_rest)
  = first_VARIADIC (paramkinds (extracted args_int64_rest)).
Proof.
  apply (variadic_is_first_when_unique _ _ _ render resolve args_int64_rest
           () ∅ true).
  - reflexivity.
  - vm_compute. lia.
Defined.

(** X8 on [CREATE FUNCTION test::f(x: int64, VARIADIC rest: str)]. *)
Lemma compiled_signature_witness :
  NoDup (property <$> ops (compiled create_inline)) ∧
  property_values (compiled create_inline) "paramnames"
  = [VStrList ["x"; "rest"]].
Proof.
  destruct (compiled_signature _ _ _ _ render resolve named create_inline
              context0 ∅ (compiled create_inline) eq_refl)
    as (_ & Hnodup & _ & Hnames & _).
  split; [exact Hnodup|exact Hnames].
Defined.

(** X9 on [CREATE AGGREGATE test::f(x: int64) ... INITIAL VALUE 0]. *)
Lemma compiled_initial_value_witness :
  ∃ iv, render "0" = Ok iv ∧
        property_values (compiled create_aggregate) "initial_value" = [VStr iv].
Proof.
  exact (compiled_initial_value _ _ _ _ render resolve named create_aggregate
           context0 ∅ (compiled create_aggregate) eq_refl).
Defined.

(** X10 on [DROP FUNCTION test::f(x: int64, VARIADIC rest: str)]. *)
Lemma delete_target_name_witness :
  ∃ tys,
    Forall2 (fun a ty => resolve (arg_type _ _ a) () ∅ = Ok ty)
            args_int64_rest tys ∧
    DeleteFunction__classname_from_ast render resolve specialized named
      drop_f context0 ∅
    = Ok (mkName "test" (specialized f_name (qualifier_tokens tys))).
Proof.
  apply (delete_target_name _ _ _ _ render resolve specialized named drop_f
           context0 ∅ f_name).
  - reflexivity.
  - repeat constructor; apply collaborators_succeed_concrete.
Defined.

(** X13 on [CREATE FUNCTION test::f(x: int64, VARIADIC rest: str)] and the
    empty schema. *)
Lemma add_to_schema_stores_witness :
  (CreateFunction__add_to_schema specialized (compiled create_inline) ∅).2
  = Ok ().
Proof.
  edestruct (add_to_schema_stores _ _ _ _ render resolve specialized named
               create_inline context0 ∅ (compiled create_inline) f_name
               (extracted args_int64_rest) ∅)
    as (Hok & _); [reflexivity|reflexivity|reflexivity|..|exact Hok].
  - intros (i & pt & src & _ & _ & Hpd).
    destruct i as [|[|i]]; discriminate Hpd.
  - reflexivity.
Defined.

(** X14 on the same statement, added twice to the empty schema. *)
Lemma add_to_schema_twice_witness :
  CreateFunction__add_to_schema specialized (compiled create_inline)
    (CreateFunction__add_to_schema specialized (compiled create_inline) ∅).1
  = ((CreateFunction__add_to_schema specialized (compiled create_inline) ∅).1,
     Raise DuplicateSignatureError).
Proof.
  apply (add_to_schema_twice _ _ _ _ render resolve specialized named
           create_inline context0 ∅ (compiled create_inline) f_name
           (extracted args_int64_rest) ∅); reflexivity.
Defined.

(** X15 on [test::f(x: int64, VARIADIC rest: str)] and [test::f(s: str)]. *)
Lemma overloads_coexist_witness :
  Name_str f_int64_str ≠ Name_str f_str.
Proof.
  edestruct (overloads_coexist _ _ _ _ render resolve specialized named
               create_inline create_str context0 ∅
               (compiled create_inline) (compiled create_str) f_name
               (extracted args_int64_rest)
               (extracted (cf_args create_str)) ∅)
    as (Hkeys & _); [..|exact Hkeys]; try reflexivity.
  - apply specialized_inj.
  - vm_compute. intros H. discriminate H.
Defined.

(** X16 on a command that only sets the aggregate flag. *)
Lemma add_without_parameter_properties_witness :
  CreateFunction__add_to_schema specialized bare_command ∅
  = (∅, Raise (KeyError "paramnames")).
Proof.
  apply (add_without_parameter_properties specialized bare_command ∅).
  all: intros H; apply list_elem_of_singleton in H; discriminate H.
Defined.

(** X17 on [test::f(x: any = 1)] and a schema that holds [test::f(any)]. *)
Lemma add_to_schema_raise_keeps_schema_witness :
  (CreateFunction__add_to_schema specialized (compiled create_any_default)
     schema_with_f_any).1
  = schema_with_f_any.
Proof.
  apply (add_to_schema_raise_keeps_schema specialized
           (compiled create_any_default) schema_with_f_any
           PolymorphicDefaultError).
  by vm_compute.
Defined.

(** X18 on [test::f(s: str)] and a schema that holds [test::f(any)]. *)
Lemma add_to_schema_adds_fresh_witness :
  ∃ props fullname,
    CreateFunction_get_struct_properties specialized (compiled create_str)
      schema_with_f_any = Ok props ∧
    props !! "name" = Some (VName fullname) ∧
    schema_with_f_any !! Name_str fullname = None ∧
    (CreateFunction__add_to_schema specialized (compiled create_str)
       schema_with_f_any).1
    = <[Name_str fullname := props]> schema_with_f_any.
Proof.
  apply (add_to_schema_adds_fresh specialized (compiled create_str)
           schema_with_f_any).
  by vm_compute.
Defined.

(** X19 on [CREATE FUNCTION test::f(x: int64, VARIADIC rest: str)], added
    to the empty schema, and the DROP statement with the same parameters. *)
Lemma created_function_found_by_drop_target_witness :
  ∃ target obj,
    DeleteFunction__classname_from_ast render resolve specialized named
      drop_f context0 ∅ = Ok target ∧
    (CreateFunction__add_to_schema specialized (compiled create_inline) ∅).1
    !! Name_str target = Some obj ∧
    obj !! "name" = Some (VName target).
Proof.
  apply (created_function_found_by_drop_target _ _ _ _ render resolve
           specialized named create_inline drop_f context0 ∅
           (compiled create_inline) ∅); reflexivity.
Defined.
